(** * The cockroach-backed store of the DSS: Operational Intents, the
      transaction guard and the schema bootstrap.

    Sources embedded here:
    - [pkg/scd/store/cockroach/operational_intents.go]: the repository of
      Operational Intents (fetch, get, delete, upsert, search);
    - the store file of the remote-id package ([recoverRollbackRepanic],
      [Bootstrap]).

    The SQL engine, the [stacktrace] error library and the Go runtime are
    not part of the repository; the statements the code sends and the few
    runtime rules it relies on ([recover], [defer], integer conversions)
    are given their semantics below. *)

From Stdlib Require Import ZArith List String Bool Lia Arith.
From Stdlib Require Import DecimalString DecimalZ.
Import ListNotations.
Local Open Scope string_scope.
Local Open Scope list_scope.

(** ** Machine integers

    [s2.CellID] is a [uint64]; the [cells] column is an [INT64\[\]].  The
    code converts with [int64(cell)] on the way in and with
    [s2.CellID(uint64(cell))] on the way out; both conversions wrap. *)

Definition CellID := Z.
Definition CellUnion := list CellID.

Definition is_uint64 (z : Z) : Prop := (0 <= z < 2 ^ 64)%Z.
Definition is_int64 (z : Z) : Prop := (- 2 ^ 63 <= z < 2 ^ 63)%Z.

Definition to_uint64 (z : Z) : Z := (z mod 2 ^ 64)%Z.

Definition to_int64 (z : Z) : Z :=
  let m := (z mod 2 ^ 64)%Z in
  if (m <? 2 ^ 63)%Z then m else (m - 2 ^ 64)%Z.

(** ** Errors: the part of [stacktrace] the code uses

    An error carries an optional code and the messages pushed on it.
    [Propagate] keeps the code of its cause, [PropagateWithCode] replaces
    it. *)

Inductive ErrorCode : Type :=
| NoCode
| BadRequest
| OtherCode (n : nat).

Record Error : Type := mkError {
  err_code : ErrorCode;
  err_trace : list string
}.

Definition NewError (msg : string) : Error := mkError NoCode [msg].

Definition NewErrorWithCode (c : ErrorCode) (msg : string) : Error :=
  mkError c [msg].

Definition Propagate (cause : Error) (msg : string) : Error :=
  mkError (err_code cause) (msg :: err_trace cause).

Definition PropagateWithCode (cause : Error) (c : ErrorCode) (msg : string)
  : Error :=
  mkError c (msg :: err_trace cause).

(** [fmt.Sprintf("%d", n)] for a length. *)
Definition Sprintf_d (n : nat) : string :=
  NilEmpty.string_of_uint (Nat.to_uint n).

(** ** Outcomes of a Go call

    A call returns a value, returns a non-nil [error], or panics. *)

Inductive Outcome (A : Type) : Type :=
| Ok (a : A)
| Err (e : Error)
| Panic (p : string).

Arguments Ok {A} a.
Arguments Err {A} e.
Arguments Panic {A} p.

(** State and error monad over a store [S]. *)
Definition M (S A : Type) : Type := S -> Outcome A * S.

Definition ret {S A} (a : A) : M S A := fun s => (Ok a, s).

Definition fail {S A} (e : Error) : M S A := fun s => (Err e, s).

Definition panic {S A} (p : string) : M S A := fun s => (Panic p, s).

Definition bind {S A B} (m : M S A) (k : A -> M S B) : M S B :=
  fun s =>
    match m s with
    | (Ok a, s') => k a s'
    | (Err e, s') => (Err e, s')
    | (Panic p, s') => (Panic p, s')
    end.

(** [if err != nil { return nil, wrap(err) }] around a call. *)
Definition wrap {S A} (m : M S A) (f : Error -> Error) : M S A :=
  fun s =>
    match m s with
    | (Err e, s') => (Err (f e), s')
    | r => r
    end.

Declare Scope go_scope.
Delimit Scope go_scope with go.
Notation "x <- m ;; k" := (bind m (fun x => k))
  (at level 100, m at next level, right associativity) : go_scope.
Local Open Scope go_scope.

(** ** Data model *)

Module dssmodels.
Definition ID := string.
End dssmodels.

Module scdmodels.
Definition OVN := string.
End scdmodels.

(** Instants ([time.Time], [TIMESTAMPTZ]) as integer timestamps. *)
Definition Time := Z.

(** Altitudes are [float32] in the models and in the table; the store only
    compares them, so the type and its [<=] are left open. *)
Class Altitude : Type := {
  Alt : Type;
  alt_leb : Alt -> Alt -> bool
}.

(** The row of [scd_operations], columns in the order of
    [operationFieldsWithIndices]. *)
Module scd_operations.
Section Row.
Context `{Altitude}.

Record row : Type := mkRow {
  id : dssmodels.ID;
  owner : string;
  version : Z;
  url : string;
  altitude_lower : option Alt;
  altitude_upper : option Alt;
  starts_at : option Time;
  ends_at : option Time;
  subscription_id : dssmodels.ID;
  updated_at : Time;
  state : string;
  cells : list Z
}.

End Row.
End scd_operations.

(** The column lists that [init] builds; the read projection and the
    UPSERT share them. *)
Definition operationFieldsWithIndices : list string :=
  [ "id"; "owner"; "version"; "url"; "altitude_lower"; "altitude_upper";
    "starts_at"; "ends_at"; "subscription_id"; "updated_at"; "state";
    "cells" ].

Definition operationFieldsWithoutPrefix : string :=
  String.concat "," operationFieldsWithIndices.

Definition operationFieldsWithPrefix : string :=
  String.concat ","
    (map (fun field => ("scd_operations." ++ field)%string)
       operationFieldsWithIndices).

Section Models.
Context `{Altitude}.

(** [scdmodels.OperationalIntent], with the fields the repository reads and
    writes. *)
Record OperationalIntent : Type := mkOperationalIntent {
  ID : dssmodels.ID;
  Manager : string;
  Version : Z;
  USSBaseURL : string;
  AltitudeLower : option Alt;
  AltitudeUpper : option Alt;
  StartTime : option Time;
  EndTime : option Time;
  SubscriptionID : dssmodels.ID;
  State : string;
  OVN : scdmodels.OVN;
  Cells : CellUnion
}.

Definition set_OVN (o : OperationalIntent) (v : scdmodels.OVN) : OperationalIntent :=
  mkOperationalIntent (ID o) (Manager o) (Version o) (USSBaseURL o)
    (AltitudeLower o) (AltitudeUpper o) (StartTime o) (EndTime o)
    (SubscriptionID o) (State o) v (Cells o).

Definition set_Cells (o : OperationalIntent) (c : CellUnion)
  : OperationalIntent :=
  mkOperationalIntent (ID o) (Manager o) (Version o) (USSBaseURL o)
    (AltitudeLower o) (AltitudeUpper o) (StartTime o) (EndTime o)
    (SubscriptionID o) (State o) (OVN o) c.

End Models.

(** What the repository calls but the sources do not define. *)
Class Collaborators `{Altitude} : Type := {
  (** the type behind [v4d.SpatialVolume.Footprint] *)
  Geometry : Type;
  (** [Footprint.CalculateCovering()] *)
  CalculateCovering : Geometry -> Error + CellUnion;
  (** [dssmodels.ID.String()] *)
  ID_String : dssmodels.ID -> string;
  (** [scdmodels.NewOVNFromTime(updatedAt, id)] *)
  NewOVNFromTime : Time -> string -> scdmodels.OVN;
  (** the constraints [CREATE TABLE scd_operations] puts on a row; the
      statement is not in the sources *)
  scd_operations_check : scd_operations.row -> bool
}.

Section Volumes.
Context `{Collaborators}.

(** [dssmodels.Volume3D] and [dssmodels.Volume4D]: every part the search
    reads is a pointer (or an interface) that may be nil. *)
Record Volume3D : Type := mkVolume3D {
  Footprint : option Geometry;
  AltitudeLo : option Alt;
  AltitudeHi : option Alt
}.

Record Volume4D : Type := mkVolume4D {
  SpatialVolume : option Volume3D;
  V4StartTime : option Time;
  V4EndTime : option Time
}.

End Volumes.

(** ** The backing store

    The table [scd_operations] as the list of its rows, and the timestamp
    of the running transaction ([transaction_timestamp()]). *)

Section Store.
Context `{Collaborators}.

Record DB : Type := mkDB {
  table : list scd_operations.row;
  transaction_timestamp : Time
}.

Definition has_id (i : dssmodels.ID) (r : scd_operations.row) : bool :=
  String.eqb (scd_operations.id r) i.

(** [id] is the key of [scd_operations] (§6 of the spec: "id (unique
    key)"; UPSERT needs one). *)
Definition keyed (t : list scd_operations.row) : Prop :=
  NoDup (map scd_operations.id t).

(** The [cells] column holds [int64] values. *)
Definition cells_int64 (t : list scd_operations.row) : Prop :=
  Forall (fun r => Forall is_int64 (scd_operations.cells r)) t.

(** A row with the id is in the table. *)
Definition stored (i : dssmodels.ID) (db : DB) : Prop :=
  exists r, In r (table db) /\ scd_operations.id r = i.

(** *** SQL operators, with NULL *)

(** [x >= y]: NULL when either side is NULL. *)
Definition sql_ge {A} (leb : A -> A -> bool) (x y : option A) : option bool :=
  match x, y with
  | Some a, Some b => Some (leb b a)
  | _, _ => None
  end.

(** [x <= y]: NULL when either side is NULL. *)
Definition sql_le {A} (leb : A -> A -> bool) (x y : option A) : option bool :=
  match x, y with
  | Some a, Some b => Some (leb a b)
  | _, _ => None
  end.

Definition COALESCE {A} (x : option A) (d : A) : A :=
  match x with
  | Some a => a
  | None => d
  end.

(** [a && b] on arrays: some element in common. *)
Definition array_overlap (a b : list Z) : bool :=
  existsb (fun x => existsb (Z.eqb x) b) a.

(** The WHERE clause of [operationsIntersectingVolumeQuery]. *)
Definition intersecting_where (cids : list Z) (lo hi : option Alt)
    (starts ends : option Time) (r : scd_operations.row) : bool :=
  array_overlap (scd_operations.cells r) cids
  && COALESCE (sql_ge alt_leb (scd_operations.altitude_upper r) lo) true
  && COALESCE (sql_le alt_leb (scd_operations.altitude_lower r) hi) true
  && COALESCE (sql_ge Z.leb (scd_operations.ends_at r) starts) true
  && COALESCE (sql_le Z.leb (scd_operations.starts_at r) ends) true.

(** [UPSERT INTO scd_operations]: [id] is the key (§6 of the spec: "id
    (unique key)"); a row with the key is replaced, otherwise the row is
    added. *)
Definition sql_upsert (r : scd_operations.row) (t : list scd_operations.row)
  : list scd_operations.row :=
  if existsb (has_id (scd_operations.id r)) t
  then map (fun x => if has_id (scd_operations.id r) x then r else x) t
  else t ++ [r].

(** [DELETE FROM scd_operations WHERE id = $1]. *)
Definition sql_delete (i : dssmodels.ID) (t : list scd_operations.row)
  : list scd_operations.row :=
  filter (fun x => negb (has_id i x)) t.

(** The statements that return rows of [scd_operations], with their
    arguments. *)
Inductive OperationQuery : Type :=
| SelectByID (i : dssmodels.ID)
| UpsertReturning (i : dssmodels.ID) (manager : string) (ver : Z)
    (ussBaseURL : string) (altitudeLower altitudeUpper : option Alt)
    (startTime endTime : option Time) (subscriptionID : dssmodels.ID)
    (st : string) (cids : list Z)
| SelectIntersecting (cids : list Z) (altitudeLo altitudeHi : option Alt)
    (startTime endTime : option Time).

Definition query_text (q : OperationQuery) : string :=
  match q with
  | SelectByID _ =>
      "SELECT " ++ operationFieldsWithoutPrefix
      ++ " FROM scd_operations WHERE id = $1"
  | UpsertReturning _ _ _ _ _ _ _ _ _ _ _ =>
      "UPSERT INTO scd_operations (" ++ operationFieldsWithoutPrefix
      ++ ") VALUES ($1, $2, $3, $4, $5, $6, $7, $8, $9, "
      ++ "transaction_timestamp(), $10, $11) RETURNING "
      ++ operationFieldsWithPrefix
  | SelectIntersecting _ _ _ _ _ =>
      "SELECT " ++ operationFieldsWithPrefix
      ++ " FROM scd_operations WHERE cells && $1"
      ++ " AND COALESCE(scd_operations.altitude_upper >= $2, true)"
      ++ " AND COALESCE(scd_operations.altitude_lower <= $3, true)"
      ++ " AND COALESCE(scd_operations.ends_at >= $4, true)"
      ++ " AND COALESCE(scd_operations.starts_at <= $5, true)"
  end.

(** The engine refuses a row that breaks a constraint of the table. *)
Definition constraint_violation : Error :=
  mkError NoCode ["pq: failed to satisfy CHECK constraint"].

(** [q.QueryContext(ctx, query, args...)] for the three statements. *)
Definition QueryContext (q : OperationQuery) : M DB (list scd_operations.row) :=
  fun db =>
    match q with
    | SelectByID i => (Ok (filter (has_id i) (table db)), db)
    | UpsertReturning i manager ver ussBaseURL lo hi starts ends sub st cids =>
        let r := scd_operations.mkRow i manager ver ussBaseURL lo hi starts
                   ends sub (transaction_timestamp db) st cids in
        if scd_operations_check r
        then (Ok [r], mkDB (sql_upsert r (table db)) (transaction_timestamp db))
        else (Err constraint_violation, db)
    | SelectIntersecting cids lo hi starts ends =>
        (Ok (filter (intersecting_where cids lo hi starts ends) (table db)), db)
    end.

(** [SELECT unnest(cells) as cell_id FROM scd_operations WHERE id = $1]. *)
Definition QueryContext_unnest (i : dssmodels.ID) : M DB (list Z) :=
  fun db => (Ok (flat_map scd_operations.cells (filter (has_id i) (table db))), db).

(** [ExecContext] of the DELETE, with [RowsAffected]. *)
Definition ExecContext_delete (i : dssmodels.ID) : M DB nat :=
  fun db =>
    (Ok (List.length (filter (has_id i) (table db))),
     mkDB (sql_delete i (table db)) (transaction_timestamp db)).

(** ** The repository *)

(** Modelled from the spec: [OperationalIntent.SetCells] is called by
    [fetchOperationalIntents] but is not in the sources.  §4.3 has the core
    row fetch and the expanding fetch agree on the cell set; each stored
    [int64] becomes the cell id with the same bits. *)
Definition SetCells (o : OperationalIntent) (cids : list Z)
  : OperationalIntent :=
  set_Cells o (map to_uint64 cids).

(** One turn of the [rows.Next()] loop: [rows.Scan], then the OVN, then
    [SetCells]. *)
Definition scan_row (r : scd_operations.row) : OperationalIntent :=
  let o := mkOperationalIntent
             (scd_operations.id r) (scd_operations.owner r)
             (scd_operations.version r) (scd_operations.url r)
             (scd_operations.altitude_lower r)
             (scd_operations.altitude_upper r)
             (scd_operations.starts_at r) (scd_operations.ends_at r)
             (scd_operations.subscription_id r) (scd_operations.state r)
             EmptyString [] in
  let updatedAt := scd_operations.updated_at r in
  let o := set_OVN o (NewOVNFromTime updatedAt (ID_String (ID o))) in
  SetCells o (scd_operations.cells r).

Definition populateOperationalIntentCells (o : OperationalIntent)
  : M DB OperationalIntent :=
  rows <- wrap (QueryContext_unnest (ID o))
            (fun e => Propagate e "Error in query: SELECT unnest(cells)") ;;
  ret (set_Cells o (map (fun cell => to_uint64 cell) rows)).

(** The second loop of [fetchOperationalIntents]. *)
Fixpoint populate_payload (payload : list OperationalIntent)
  : M DB (list OperationalIntent) :=
  match payload with
  | [] => ret []
  | op :: rest =>
      op' <- wrap (populateOperationalIntentCells op)
               (fun e => Propagate e
                  ("Error populating cells for Operation " ++ ID_String (ID op))) ;;
      rest' <- populate_payload rest ;;
      ret (op' :: rest')
  end.

Definition fetchOperationalIntents (q : OperationQuery)
  : M DB (list OperationalIntent) :=
  rows <- wrap (QueryContext q)
            (fun e => Propagate e ("Error in query: " ++ query_text q)) ;;
  let payload := map scan_row rows in
  populate_payload payload.

Definition fetchOperationalIntent (q : OperationQuery)
  : M DB (option OperationalIntent) :=
  operations <- fetchOperationalIntents q ;;
  if Nat.ltb 1 (List.length operations) then
    fail (NewError ("Query returned " ++ Sprintf_d (List.length operations)
                    ++ " Operations when only 0 or 1 was expected"))
  else
    match operations with
    | [] => ret None
    | o :: _ => ret (Some o)
    end.

Definition fetchOperationByID (i : dssmodels.ID)
  : M DB (option OperationalIntent) :=
  fetchOperationalIntent (SelectByID i).

Definition GetOperationalIntent (i : dssmodels.ID)
  : M DB (option OperationalIntent) :=
  fetchOperationByID i.

Definition DeleteOperationalIntent (i : dssmodels.ID) : M DB unit :=
  rows <- wrap (ExecContext_delete i)
            (fun e => Propagate e "Error in query: DELETE FROM scd_operations") ;;
  if Nat.eqb rows 0 then
    fail (NewError "Could not delete Operation that does not exist")
  else ret tt.

Definition UpsertOperationalIntent (operation : OperationalIntent)
  : M DB (option OperationalIntent) :=
  let cids := map (fun cell => to_int64 cell) (Cells operation) in
  let cells := Cells operation in
  operation' <- wrap (fetchOperationalIntent
                        (UpsertReturning (ID operation) (Manager operation)
                           (Version operation) (USSBaseURL operation)
                           (AltitudeLower operation) (AltitudeUpper operation)
                           (StartTime operation) (EndTime operation)
                           (SubscriptionID operation) (State operation) cids))
                  (fun e => Propagate e "Error fetching Operation") ;;
  match operation' with
  | None => panic "invalid memory address or nil pointer dereference"
  | Some o => ret (Some (set_Cells o cells))
  end.

Definition searchOperationalIntents (v4d : Volume4D)
  : M DB (list OperationalIntent) :=
  match SpatialVolume v4d with
  | None => fail (NewErrorWithCode BadRequest
                    "Missing geospatial footprint for query")
  | Some vol =>
      match Footprint vol with
      | None => fail (NewErrorWithCode BadRequest
                        "Missing geospatial footprint for query")
      | Some footprint =>
          match CalculateCovering footprint with
          | inl err => fail (PropagateWithCode err BadRequest
                               "Failed to calculate footprint covering")
          | inr cells =>
              if Nat.eqb (List.length cells) 0 then
                fail (NewErrorWithCode BadRequest "Missing cell IDs for query")
              else
                let cids := map (fun cid => to_int64 cid) cells in
                wrap (fetchOperationalIntents
                        (SelectIntersecting cids (AltitudeLo vol)
                           (AltitudeHi vol) (V4StartTime v4d) (V4EndTime v4d)))
                  (fun e => Propagate e "Error fetching Operations")
          end
      end
  end.

Definition SearchOperationalIntents (v4d : Volume4D)
  : M DB (list OperationalIntent) :=
  searchOperationalIntents v4d.

(** [SELECT id FROM scd_operations WHERE subscription_id = $1]. *)
Definition dependentOperationsQuery : string :=
  "SELECT id FROM scd_operations WHERE subscription_id = $1".

Definition QueryContext_dependents (subscriptionID : dssmodels.ID)
  : M DB (list dssmodels.ID) :=
  fun db =>
    (Ok (map scd_operations.id
           (filter (fun r => String.eqb (scd_operations.subscription_id r)
                               subscriptionID)
              (table db))), db).

(** The loop appends each scanned id to [dependentOps]. *)
Definition GetDependentOperationalIntents (subscriptionID : dssmodels.ID)
  : M DB (list dssmodels.ID) :=
  rows <- wrap (QueryContext_dependents subscriptionID)
            (fun e => Propagate e ("Error in query: " ++ dependentOperationsQuery)) ;;
  ret (fold_left (fun dependentOps opID => dependentOps ++ [opID]) rows []).

(** The footprint of a filter, when it has one. *)
Definition footprint_of (v4d : Volume4D) : option Geometry :=
  match SpatialVolume v4d with
  | Some vol => Footprint vol
  | None => None
  end.

(** Modelled from the spec: [scdmodels.NewOVNFromTime] is not in the
    sources.  §4.2 has the token a deterministic, collision-resistant
    function of [updated_at] and [id]; collision freedom is stated here as
    injectivity in the timestamp, for each id. *)
Definition ovn_collision_free : Prop :=
  forall (t1 t2 : Time) (salt : string),
    NewOVNFromTime t1 salt = NewOVNFromTime t2 salt -> t1 = t2.

(** *** The matching rule of the search, in the words of the spec

    An entity matches when its cells meet the cells of the filter and each
    of its four bounds is absent or on the right side of the bound of the
    filter.  The bounds of the filter are optional too: one that is absent
    constrains nothing. *)

Definition cells_intersect (a b : CellUnion) : Prop :=
  exists c, In c a /\ In c b.

Definition alt_le (a b : Alt) : Prop := alt_leb a b = true.

(** [lower <= upper], when both are there. *)
Definition bound_allows {A} (le : A -> A -> Prop) (lower upper : option A)
  : Prop :=
  match lower, upper with
  | Some l, Some u => le l u
  | _, _ => True
  end.

Definition altitude_matches (e : OperationalIntent) (vol : Volume3D) : Prop :=
  (AltitudeUpper e = None
   \/ bound_allows alt_le (AltitudeLo vol) (AltitudeUpper e))
  /\ (AltitudeLower e = None
      \/ bound_allows alt_le (AltitudeLower e) (AltitudeHi vol)).

Definition end_matches (e : OperationalIntent) (v4d : Volume4D) : Prop :=
  EndTime e = None \/ bound_allows Z.le (V4StartTime v4d) (EndTime e).

Definition start_matches (e : OperationalIntent) (v4d : Volume4D) : Prop :=
  StartTime e = None \/ bound_allows Z.le (StartTime e) (V4EndTime v4d).

Definition matching_rule (e : OperationalIntent) (cover : CellUnion)
    (vol : Volume3D) (v4d : Volume4D) : Prop :=
  cells_intersect (Cells e) cover
  /\ altitude_matches e vol
  /\ end_matches e v4d
  /\ start_matches e v4d.

(** *** Closed forms used by the proofs *)

(** What [populateOperationalIntentCells] leaves in [o]: the unnested cells
    of the rows with the id of [o]. *)
Definition expanded (db : DB) (o : OperationalIntent) : OperationalIntent :=
  set_Cells o
    (map to_uint64
       (flat_map scd_operations.cells (filter (has_id (ID o)) (table db)))).

(** The row the UPSERT writes for [operation] in a transaction whose
    timestamp is [now]. *)
Definition upsert_row (operation : OperationalIntent) (now : Time)
  : scd_operations.row :=
  scd_operations.mkRow (ID operation) (Manager operation) (Version operation)
    (USSBaseURL operation) (AltitudeLower operation) (AltitudeUpper operation)
    (StartTime operation) (EndTime operation) (SubscriptionID operation)
    now (State operation) (map to_int64 (Cells operation)).

(** The stores the repository can build: from the empty table, by upserts
    and deletes, transactions starting at any time. *)
Inductive reachable : DB -> Prop :=
| reachable_empty (now : Time) : reachable (mkDB [] now)
| reachable_begin (db : DB) (now : Time) :
    reachable db -> reachable (mkDB (table db) now)
| reachable_upsert (db : DB) (operation : OperationalIntent) :
    reachable db -> reachable (snd (UpsertOperationalIntent operation db))
| reachable_delete (db : DB) (i : dssmodels.ID) :
    reachable db -> reachable (snd (DeleteOperationalIntent i db)).

End Store.

(** ** The transaction guard

    [recoverRollbackRepanic] is meant to be deferred by the function that
    runs a transaction.  The goroutine is the panic in flight (if any), the
    table as the transaction has written it, the table as it was when the
    transaction began, whether the [sql.Tx] is finished, and the log. *)

Section Guard.
Context `{Altitude}.

Record Goroutine : Type := mkGoroutine {
  panicking : option string;
  tx_table : list scd_operations.row;
  tx_begin : list scd_operations.row;
  tx_done : bool;
  logged : list (string * Error)
}.

(** The built-in [recover], called by a deferred function: it returns the
    value of the panic in flight and stops the panicking sequence; without
    a panic it returns nil. *)
Definition recover (g : Goroutine) : option string * Goroutine :=
  (panicking g,
   mkGoroutine None (tx_table g) (tx_begin g) (tx_done g) (logged g)).

(** The built-in [panic]. *)
Definition go_panic (p : string) (g : Goroutine) : Goroutine :=
  mkGoroutine (Some p) (tx_table g) (tx_begin g) (tx_done g) (logged g).

Definition ErrTxDone : Error :=
  mkError NoCode ["sql: transaction has already been committed or rolled back"].

(** [tx.Rollback()]: undoes the writes of an open transaction; a finished
    transaction answers [sql.ErrTxDone]. *)
Definition Rollback (g : Goroutine) : option Error * Goroutine :=
  if tx_done g then (Some ErrTxDone, g)
  else (None, mkGoroutine (panicking g) (tx_begin g) (tx_begin g) true (logged g)).

(** [logging.Logger.Error(msg, zap.Error(err))]. *)
Definition Logger_Error (msg : string) (err : Error) (g : Goroutine)
  : Goroutine :=
  mkGoroutine (panicking g) (tx_table g) (tx_begin g) (tx_done g)
    (logged g ++ [(msg, err)]).

Definition recoverRollbackRepanic (g : Goroutine) : Goroutine :=
  let (p, g1) := recover g in
  match p with
  | Some _ =>
      let (err, g2) := Rollback g1 in
      match err with
      | Some e => Logger_Error "failed to rollback transaction" e g2
      | None => g2
      end
  | None => g1
  end.

(** [defer d(); body]: the deferred call runs when the body is left, by a
    return or by a panic.  The caller then sees what is left in
    [panicking]: a value when the panic goes on, nothing when the function
    returns. *)
Definition with_deferred (d body : Goroutine -> Goroutine)
  : Goroutine -> Goroutine :=
  fun g => d (body g).

End Guard.

(** ** The schema bootstrap

    The statements of [Bootstrap] as data, and the part of the engine they
    need: a catalogue of tables, [CREATE TABLE \[IF NOT EXISTS\]], and the
    evaluation of CHECK expressions with SQL's NULL. *)

Module Schema.

Inductive SqlType : Type := UUID | STRING | INT4 | TIMESTAMPTZ | INT64_ARRAY.

Inductive Value : Type :=
| VNull
| VBool (b : bool)
| VInt (z : Z)
| VString (s : string)
| VTime (t : Time)
| VArray (l : list Z).

Inductive Expr : Type :=
| Col (name : string)
| IntLit (z : Z)
| array_length (e : Expr) (dim : Z)
| Gt (a b : Expr)
| Lt (a b : Expr)
| AND (a b : Expr)
| OR (a b : Expr)
| IS_NULL (e : Expr)
| IS_NOT_NULL (e : Expr).

Record Column : Type := mkColumn {
  col_name : string;
  col_type : SqlType;
  col_primary_key : bool;
  col_not_null : bool;
  col_default : option Value;
  col_check : option Expr
}.

Record Index : Type := mkIndex {
  idx_name : string;
  idx_inverted : bool;
  idx_columns : list string
}.

Record Table : Type := mkTable {
  tbl_name : string;
  tbl_columns : list Column;
  tbl_indexes : list Index;
  tbl_checks : list Expr
}.

Inductive Statement : Type :=
| CREATE_TABLE (if_not_exists : bool) (t : Table).

Definition Catalog := list Table.

(** A row gives a value to each column name. *)
Definition SqlRow := string -> Value.

(** Comparison of two values of one ordered type; NULL otherwise. *)
Definition sql_lt (a b : Value) : Value :=
  match a, b with
  | VInt x, VInt y => VBool (x <? y)%Z
  | VTime x, VTime y => VBool (x <? y)%Z
  | _, _ => VNull
  end.

Definition sql_and (a b : Value) : Value :=
  match a, b with
  | VBool false, _ => VBool false
  | _, VBool false => VBool false
  | VBool true, VBool true => VBool true
  | _, _ => VNull
  end.

Definition sql_or (a b : Value) : Value :=
  match a, b with
  | VBool true, _ => VBool true
  | _, VBool true => VBool true
  | VBool false, VBool false => VBool false
  | _, _ => VNull
  end.

Definition is_null (v : Value) : bool :=
  match v with
  | VNull => true
  | _ => false
  end.

Fixpoint eval (r : SqlRow) (e : Expr) : Value :=
  match e with
  | Col name => r name
  | IntLit z => VInt z
  | array_length a dim =>
      match eval r a with
      | VArray ((_ :: _) as l) =>
          if (dim =? 1)%Z then VInt (Z.of_nat (List.length l)) else VNull
      | _ => VNull
      end
  | Gt a b => sql_lt (eval r b) (eval r a)
  | Lt a b => sql_lt (eval r a) (eval r b)
  | AND a b => sql_and (eval r a) (eval r b)
  | OR a b => sql_or (eval r a) (eval r b)
  | IS_NULL a => VBool (is_null (eval r a))
  | IS_NOT_NULL a => VBool (negb (is_null (eval r a)))
  end.

(** A CHECK refuses the row only when the expression is false. *)
Definition check_passes (r : SqlRow) (e : Expr) : bool :=
  match eval r e with
  | VBool false => false
  | _ => true
  end.

Definition column_accepts (r : SqlRow) (c : Column) : bool :=
  (negb (col_not_null c || col_primary_key c) || negb (is_null (r (col_name c))))
  && match col_check c with
     | Some e => check_passes r e
     | None => true
     end.

(** The rows a table takes. *)
Definition accepts (t : Table) (r : SqlRow) : bool :=
  forallb (column_accepts r) (tbl_columns t)
  && forallb (check_passes r) (tbl_checks t).

Definition lookup_table (name : string) (c : Catalog) : option Table :=
  find (fun t => String.eqb (tbl_name t) name) c.

Definition relation_exists (name : string) : Error :=
  mkError NoCode [("pq: relation already exists: " ++ name)%string].

Definition exec_statement (s : Statement) : M Catalog unit :=
  fun c =>
    match s with
    | CREATE_TABLE if_not_exists t =>
        match lookup_table (tbl_name t) c with
        | Some _ =>
            if if_not_exists then (Ok tt, c)
            else (Err (relation_exists (tbl_name t)), c)
        | None => (Ok tt, c ++ [t])
        end
    end.

(** [ExecContext] of a text of several statements. *)
Fixpoint ExecContext (script : list Statement) : M Catalog unit :=
  match script with
  | [] => ret tt
  | s :: rest => _ <- exec_statement s ;; ExecContext rest
  end.

Definition plain (name : string) (ty : SqlType) (not_null : bool) : Column :=
  mkColumn name ty false not_null None None.

Definition starts_before_ends : Expr :=
  OR (OR (IS_NULL (Col "starts_at")) (IS_NULL (Col "ends_at")))
     (Lt (Col "starts_at") (Col "ends_at")).

Definition subscriptions : Table :=
  mkTable "subscriptions"
    [ mkColumn "id" UUID true false None None;
      plain "owner" STRING true;
      plain "url" STRING true;
      mkColumn "notification_index" INT4 false false (Some (VInt 0)) None;
      plain "starts_at" TIMESTAMPTZ false;
      plain "ends_at" TIMESTAMPTZ false;
      plain "updated_at" TIMESTAMPTZ true;
      mkColumn "cells" INT64_ARRAY false true None
        (Some (AND (Gt (array_length (Col "cells") 1) (IntLit 0))
                   (IS_NOT_NULL (array_length (Col "cells") 1)))) ]
    [ mkIndex "owner_idx" false ["owner"];
      mkIndex "cells_idx" true ["cells"];
      mkIndex "starts_at_idx" false ["starts_at"];
      mkIndex "ends_at_idx" false ["ends_at"] ]
    [ starts_before_ends ].

Definition identification_service_areas : Table :=
  mkTable "identification_service_areas"
    [ mkColumn "id" UUID true false None None;
      plain "owner" STRING true;
      plain "url" STRING true;
      plain "starts_at" TIMESTAMPTZ false;
      plain "ends_at" TIMESTAMPTZ false;
      plain "updated_at" TIMESTAMPTZ true;
      mkColumn "cells" INT64_ARRAY false true None
        (Some (IS_NOT_NULL (array_length (Col "cells") 1))) ]
    [ mkIndex "owner_idx" false ["owner"];
      mkIndex "cells_idx" true ["cells"];
      mkIndex "starts_at_idx" false ["starts_at"];
      mkIndex "ends_at_idx" false ["ends_at"];
      mkIndex "updated_at_idx" false ["updated_at"] ]
    [ starts_before_ends ].

(** The text [Bootstrap] sends. *)
Definition query : list Statement :=
  [ CREATE_TABLE true subscriptions;
    CREATE_TABLE true identification_service_areas ].

Definition Bootstrap : M Catalog unit := ExecContext query.

(** NULL or a timestamp: the values of a [TIMESTAMPTZ] column. *)
Definition null_or_time (v : Value) : Prop :=
  v = VNull \/ exists t, v = VTime t.

(** What [CREATE TABLE IF NOT EXISTS t] leaves in the catalogue. *)
Definition ensure (t : Table) (c : Catalog) : Catalog :=
  match lookup_table (tbl_name t) c with
  | Some _ => c
  | None => c ++ [t]
  end.

(** The table that holds the Operational Intents, as
    [operational_intents.go] names it. *)
Definition operational_intents_table : string := "scd_operations".

End Schema.

(** ** A concrete instance

    Integer altitudes; a footprint that is either degenerate (the covering
    fails) or the list of its cells; tokens that spell the id and the
    timestamp; a table that refuses an empty cell array. *)

Module Fixture.

Definition altitude : Altitude := {| Alt := Z; alt_leb := Z.leb |}.
#[local] Existing Instance altitude.

Definition covering (g : option (list Z)) : Error + CellUnion :=
  match g with
  | None => inl (NewError "not enough points in polygon")
  | Some l => inr l
  end.

Definition ovn (t : Time) (salt : string) : scdmodels.OVN :=
  (salt ++ "@" ++ NilEmpty.string_of_int (Z.to_int t))%string.

Definition non_empty_cells (r : @scd_operations.row altitude) : bool :=
  negb (Nat.eqb (List.length (scd_operations.cells r)) 0).

Definition collaborators : @Collaborators altitude :=
  {| Geometry := option (list Z);
     CalculateCovering := covering;
     ID_String := fun i => i;
     NewOVNFromTime := ovn;
     scd_operations_check := non_empty_cells |}.
#[local] Existing Instance collaborators.

(** A stored Operational Intent, last written at 100, and a store whose
    running transaction has the timestamp 200. *)
Definition row0 : @scd_operations.row altitude :=
  scd_operations.mkRow "op-1" "uss1" 1%Z "https://uss1.example/op-1"
    (Some 0%Z) (Some 500%Z) (Some 1000%Z) (Some 2000%Z) "sub-1" 100%Z
    "Accepted" [100%Z; 101%Z].

Definition db0 : @DB altitude := mkDB [row0] 200%Z.

(** An update of [op-1] that presents a token nobody issued. *)
Definition stale_update : @OperationalIntent altitude :=
  mkOperationalIntent "op-1" "uss1" 2%Z "https://uss1.example/op-1/v2"
    (Some 0%Z) (Some 500%Z) (Some 1000%Z) (Some 2000%Z) "sub-1"
    "Activated" "stale-token" [100%Z; 101%Z].

(** A second update of [op-1]. *)
Definition second_update : @OperationalIntent altitude :=
  mkOperationalIntent "op-1" "uss1" 3%Z "https://uss1.example/op-1/v3"
    (Some 0%Z) (Some 500%Z) (Some 1000%Z) (Some 2000%Z) "sub-1"
    "Activated" "stale-token" [101%Z; 102%Z].

(** An update of an id that is not stored, with a token. *)
Definition update_of_nonexistent : @OperationalIntent altitude :=
  mkOperationalIntent "op-9" "uss2" 1%Z "https://uss2.example/op-9"
    None None None None "" "Accepted" "some-token" [300%Z].

(** A table in which two rows carry one id. *)
Definition db_twice : @DB altitude := mkDB [row0; row0] 200%Z.

(** A filter over the cells 101 and 200, altitudes 400 to 600, that starts
    when [op-1] ends. *)
Definition volume : @Volume3D altitude collaborators :=
  mkVolume3D (Some (Some [101%Z; 200%Z])) (Some 400%Z) (Some 600%Z).

Definition filter_at_end : @Volume4D altitude collaborators :=
  mkVolume4D (Some volume) (Some 2000%Z) (Some 3000%Z).

(** A filter over the cell 300 only. *)
Definition filter_elsewhere : @Volume4D altitude collaborators :=
  mkVolume4D (Some (mkVolume3D (Some (Some [300%Z])) None None)) None None.

(** A filter whose footprint is there but has no covering. *)
Definition filter_degenerate : @Volume4D altitude collaborators :=
  mkVolume4D (Some (mkVolume3D (Some None) None None)) None None.

(** A goroutine that panicked after the transaction wrote [row0]. *)
Definition panicked : @Goroutine altitude :=
  go_panic "runtime error: index out of range"
    (mkGoroutine None [row0] [] false []).

(** An empty store, and an Operational Intent linked to [sub-1] whose
    cells are beyond the range of the positive [int64]. *)
Definition db_empty : @DB altitude := mkDB [] 200%Z.

Definition far_operation : @OperationalIntent altitude :=
  mkOperationalIntent "op-2" "uss2" 1%Z "https://uss2.example/op-2"
    None (Some 450%Z) None None "sub-1" "Accepted" ""
    [(2 ^ 63 + 5)%Z; 101%Z].

(** A goroutine that panicked after its transaction was committed. *)
Definition panicked_after_commit : @Goroutine altitude :=
  go_panic "runtime error: index out of range"
    (mkGoroutine None [row0] [] true []).

(** A goroutine that left the body by a return. *)
Definition returned : @Goroutine altitude :=
  mkGoroutine None [row0] [] false [].

(** A stored row with no cells, next to [row0]. *)
Definition row_without_cells : @scd_operations.row altitude :=
  scd_operations.mkRow "op-3" "uss3" 1%Z "https://uss3.example/op-3"
    None None None None "" 150%Z "Accepted" [].

Definition db_with_bare_row : @DB altitude :=
  mkDB [row0; row_without_cells] 200%Z.

(** A row of [identification_service_areas] that starts at 10 and has no
    end. *)
Definition open_ended_area : Schema.SqlRow :=
  fun name =>
    if String.eqb name "cells" then Schema.VArray [7%Z]
    else if String.eqb name "starts_at" then Schema.VTime 10%Z
    else if String.eqb name "ends_at" then Schema.VNull
    else if String.eqb name "updated_at" then Schema.VTime 5%Z
    else Schema.VString "x".

(** The store in the transaction that has just written [stale_update]:
    the row of [op-1] carries the timestamp of the running transaction. *)
Definition db_same_transaction : @DB altitude :=
  mkDB [upsert_row stale_update 200%Z] 200%Z.

End Fixture.

(** * Properties *)

(** ** Integer conversions *)

Lemma to_uint64_to_int64 (c : Z) : is_uint64 c -> to_uint64 (to_int64 c) = c.
Proof.
  unfold is_uint64, to_uint64, to_int64. intros Hc.
  rewrite (Z.mod_small c) by lia.
  destruct (c <? 2 ^ 63)%Z eqn:E.
  - apply Z.mod_small. lia.
  - apply Z.ltb_ge in E.
    replace (c - 2 ^ 64)%Z with (c + (-1) * 2 ^ 64)%Z by lia.
    rewrite Z.mod_add by lia. apply Z.mod_small. lia.
Qed.

Lemma to_int64_to_uint64 (x : Z) : is_int64 x -> to_int64 (to_uint64 x) = x.
Proof.
  unfold is_int64, to_uint64, to_int64. intros Hx.
  rewrite Z.mod_mod by lia.
  destruct (Z_lt_ge_dec x 0) as [Hneg | Hpos].
  - replace (x mod 2 ^ 64)%Z with (x + 2 ^ 64)%Z.
    + destruct (x + 2 ^ 64 <? 2 ^ 63)%Z eqn:E; [apply Z.ltb_lt in E|]; lia.
    + symmetry. replace x with ((x + 2 ^ 64) + (-1) * 2 ^ 64)%Z at 1 by lia.
      rewrite Z.mod_add by lia. apply Z.mod_small. lia.
  - rewrite Z.mod_small by lia.
    destruct (x <? 2 ^ 63)%Z eqn:E; [reflexivity | apply Z.ltb_ge in E; lia].
Qed.

Lemma to_int64_range (z : Z) : is_int64 (to_int64 z).
Proof.
  unfold is_int64, to_int64.
  pose proof (Z.mod_pos_bound z (2 ^ 64) ltac:(lia)) as Hb.
  destruct (z mod 2 ^ 64 <? 2 ^ 63)%Z eqn:E;
    [apply Z.ltb_lt in E | apply Z.ltb_ge in E]; lia.
Qed.

Lemma to_uint64_range (z : Z) : is_uint64 (to_uint64 z).
Proof.
  unfold is_uint64, to_uint64. apply Z.mod_pos_bound. lia.
Qed.

Lemma map_to_uint64_to_int64 (l : list Z) :
  Forall is_uint64 l -> map to_uint64 (map to_int64 l) = l.
Proof.
  induction 1 as [| c l Hc _ IH]; simpl; [reflexivity|].
  now rewrite to_uint64_to_int64, IH.
Qed.

(** ** The table and its key *)

Section StoreFacts.
Context `{Collaborators}.

Lemma has_id_true (i : dssmodels.ID) (r : scd_operations.row) :
  has_id i r = true <-> scd_operations.id r = i.
Proof. unfold has_id. apply String.eqb_eq. Qed.

Lemma has_id_false (i : dssmodels.ID) (r : scd_operations.row) :
  has_id i r = false <-> scd_operations.id r <> i.
Proof. unfold has_id. apply String.eqb_neq. Qed.

Lemma filter_has_id_absent (i : dssmodels.ID) (t : list scd_operations.row) :
  ~ In i (map scd_operations.id t) -> filter (has_id i) t = [].
Proof.
  induction t as [| x t IH]; simpl; intros Hn; [reflexivity|].
  destruct (has_id i x) eqn:E.
  - apply has_id_true in E. tauto.
  - apply IH. tauto.
Qed.

Lemma filter_has_id_keyed (t : list scd_operations.row) (r : scd_operations.row) :
  keyed t -> In r t -> filter (has_id (scd_operations.id r)) t = [r].
Proof.
  unfold keyed. induction t as [| x t IH]; simpl; intros Hk Hin; [tauto|].
  inversion Hk as [| ? ? Hnotin Hk']; subst.
  destruct Hin as [-> | Hin].
  - rewrite (proj2 (has_id_true _ _) eq_refl).
    now rewrite filter_has_id_absent.
  - destruct (has_id (scd_operations.id r) x) eqn:E.
    + apply has_id_true in E. exfalso. apply Hnotin. rewrite E.
      now apply in_map.
    + now apply IH.
Qed.

Lemma not_stored_filter (i : dssmodels.ID) (db : DB) :
  ~ stored i db -> filter (has_id i) (table db) = [].
Proof.
  intros Hn. apply filter_has_id_absent. intros Hin.
  apply in_map_iff in Hin. destruct Hin as (r & Hr & Hin).
  apply Hn. now exists r.
Qed.

Lemma stored_filter (i : dssmodels.ID) (db : DB) :
  stored i db <-> filter (has_id i) (table db) <> [].
Proof.
  split.
  - intros (r & Hin & Hid) Hnil.
    assert (Hf : In r (filter (has_id i) (table db))).
    { apply filter_In. split; [assumption | now apply has_id_true]. }
    rewrite Hnil in Hf. inversion Hf.
  - intros Hne. destruct (filter (has_id i) (table db)) as [| r l] eqn:E;
      [congruence|].
    assert (Hf : In r (filter (has_id i) (table db))) by (rewrite E; now left).
    apply filter_In in Hf. destruct Hf as [Hin Hid].
    exists r. split; [assumption | now apply has_id_true].
Qed.

(** *** The key survives the writes *)

Lemma map_id_upsert_present (r : scd_operations.row) (t : list scd_operations.row) :
  map scd_operations.id
    (map (fun x => if has_id (scd_operations.id r) x then r else x) t)
  = map scd_operations.id t.
Proof.
  induction t as [| x t IH]; simpl; [reflexivity|].
  rewrite IH. destruct (has_id (scd_operations.id r) x) eqn:E; [|reflexivity].
  apply has_id_true in E. now rewrite E.
Qed.

Lemma existsb_has_id (i : dssmodels.ID) (t : list scd_operations.row) :
  existsb (has_id i) t = true <-> In i (map scd_operations.id t).
Proof.
  rewrite existsb_exists, in_map_iff. split.
  - intros (x & Hin & Hx). exists x. split; [now apply has_id_true | assumption].
  - intros (x & Hx & Hin). exists x. split; [assumption | now apply has_id_true].
Qed.

Lemma keyed_upsert (r : scd_operations.row) (t : list scd_operations.row) :
  keyed t -> keyed (sql_upsert r t).
Proof.
  unfold keyed, sql_upsert. intros Hk.
  destruct (existsb (has_id (scd_operations.id r)) t) eqn:E.
  - now rewrite map_id_upsert_present.
  - rewrite map_app. simpl.
    apply NoDup_app; [assumption | constructor; [simpl; tauto | constructor] |].
    intros a Ha [<- | []].
    apply existsb_has_id in Ha. congruence.
Qed.

Lemma keyed_delete (i : dssmodels.ID) (t : list scd_operations.row) :
  keyed t -> keyed (sql_delete i t).
Proof.
  unfold keyed, sql_delete. induction t as [| x t IH]; simpl; intros Hk;
    [constructor|].
  inversion Hk as [| ? ? Hnotin Hk']; subst.
  destruct (negb (has_id i x)); simpl; [|now apply IH].
  constructor; [|now apply IH].
  intros Hin. apply Hnotin. apply in_map_iff in Hin.
  destruct Hin as (y & Hy & Hin). apply filter_In in Hin.
  apply in_map_iff. exists y. tauto.
Qed.

Lemma in_upsert (r x : scd_operations.row) (t : list scd_operations.row) :
  In x (sql_upsert r t) ->
  x = r \/ (In x t /\ scd_operations.id x <> scd_operations.id r).
Proof.
  unfold sql_upsert.
  destruct (existsb (has_id (scd_operations.id r)) t) eqn:E.
  - intros Hin. apply in_map_iff in Hin. destruct Hin as (y & Hy & Hin).
    destruct (has_id (scd_operations.id r) y) eqn:Ey.
    + left. congruence.
    + right. subst x. split; [assumption | now apply has_id_false].
  - intros Hin. apply in_app_or in Hin. destruct Hin as [Hin | [<- | []]].
    + right. split; [assumption|]. intros Heq.
      assert (existsb (has_id (scd_operations.id r)) t = true); [|congruence].
      apply existsb_has_id. rewrite <- Heq. now apply in_map.
    + now left.
Qed.

Lemma upsert_in (r : scd_operations.row) (t : list scd_operations.row) :
  In r (sql_upsert r t).
Proof.
  unfold sql_upsert.
  destruct (existsb (has_id (scd_operations.id r)) t) eqn:E.
  - apply existsb_exists in E. destruct E as (y & Hin & Hy).
    apply in_map_iff. exists y. now rewrite Hy.
  - apply in_or_app. right. now left.
Qed.

Lemma upsert_keeps_others (r x : scd_operations.row)
    (t : list scd_operations.row) :
  In x t -> scd_operations.id x <> scd_operations.id r -> In x (sql_upsert r t).
Proof.
  unfold sql_upsert. intros Hin Hne.
  destruct (existsb (has_id (scd_operations.id r)) t).
  - apply in_map_iff. exists x.
    now rewrite (proj2 (has_id_false _ _) Hne).
  - apply in_or_app. now left.
Qed.

End StoreFacts.

(** ** The fetch paths, run *)

Section FetchFacts.
Context `{Collaborators}.

Lemma populateOperationalIntentCells_run (o : OperationalIntent) (db : DB) :
  populateOperationalIntentCells o db = (Ok (expanded db o), db).
Proof. reflexivity. Qed.

Lemma populate_payload_run (payload : list OperationalIntent) (db : DB) :
  populate_payload payload db = (Ok (map (expanded db) payload), db).
Proof.
  induction payload as [| op rest IH]; [reflexivity|].
  simpl. unfold bind, wrap at 1.
  rewrite populateOperationalIntentCells_run, IH. reflexivity.
Qed.

Lemma expanded_scan_row (db : DB) (r : scd_operations.row) :
  keyed (table db) -> In r (table db) -> expanded db (scan_row r) = scan_row r.
Proof.
  intros Hk Hin. unfold expanded.
  replace (ID (scan_row r)) with (scd_operations.id r) by reflexivity.
  rewrite (filter_has_id_keyed _ _ Hk Hin). simpl. rewrite app_nil_r.
  reflexivity.
Qed.

Lemma fetch_SelectByID (i : dssmodels.ID) (db : DB) :
  fetchOperationalIntents (SelectByID i) db
  = (Ok (map (expanded db) (map scan_row (filter (has_id i) (table db)))), db).
Proof.
  unfold fetchOperationalIntents, bind, wrap. simpl.
  apply populate_payload_run.
Qed.

Lemma fetch_SelectIntersecting (cids : list Z) (lo hi : option Alt)
    (starts ends : option Time) (db : DB) :
  fetchOperationalIntents (SelectIntersecting cids lo hi starts ends) db
  = (Ok (map (expanded db)
           (map scan_row
              (filter (intersecting_where cids lo hi starts ends) (table db)))),
     db).
Proof.
  unfold fetchOperationalIntents, bind, wrap. simpl.
  apply populate_payload_run.
Qed.

Lemma expanded_filter (db : DB) (f : scd_operations.row -> bool) :
  keyed (table db) ->
  map (expanded db) (map scan_row (filter f (table db)))
  = map scan_row (filter f (table db)).
Proof.
  intros Hk. rewrite map_map. apply map_ext_in.
  intros r Hr. apply filter_In in Hr. now apply expanded_scan_row.
Qed.

Lemma GetOperationalIntent_stored (db : DB) (r : scd_operations.row) :
  keyed (table db) ->
  In r (table db) ->
  GetOperationalIntent (scd_operations.id r) db = (Ok (Some (scan_row r)), db).
Proof.
  intros Hk Hin.
  unfold GetOperationalIntent, fetchOperationByID, fetchOperationalIntent, bind.
  rewrite fetch_SelectByID, (expanded_filter _ _ Hk).
  rewrite (filter_has_id_keyed _ _ Hk Hin). reflexivity.
Qed.

Lemma UpsertOperationalIntent_run (operation : OperationalIntent) (db : DB) :
  UpsertOperationalIntent operation db
  = let r := upsert_row operation (transaction_timestamp db) in
    if scd_operations_check r
    then (Ok (Some (set_Cells (scan_row r) (Cells operation))),
          mkDB (sql_upsert r (table db)) (transaction_timestamp db))
    else (Err (Propagate
                 (Propagate constraint_violation
                    ("Error in query: "
                     ++ query_text
                          (UpsertReturning (ID operation) (Manager operation)
                             (Version operation) (USSBaseURL operation)
                             (AltitudeLower operation) (AltitudeUpper operation)
                             (StartTime operation) (EndTime operation)
                             (SubscriptionID operation) (State operation)
                             (map to_int64 (Cells operation)))))
                 "Error fetching Operation"),
          db).
Proof.
  unfold UpsertOperationalIntent, fetchOperationalIntent,
    fetchOperationalIntents, bind, wrap, upsert_row. simpl.
  destruct (scd_operations_check _); reflexivity.
Qed.

Lemma DeleteOperationalIntent_run (i : dssmodels.ID) (db : DB) :
  DeleteOperationalIntent i db
  = (if Nat.eqb (List.length (filter (has_id i) (table db))) 0
     then Err (NewError "Could not delete Operation that does not exist")
     else Ok tt,
     mkDB (sql_delete i (table db)) (transaction_timestamp db)).
Proof.
  unfold DeleteOperationalIntent, bind, wrap, ExecContext_delete. simpl.
  destruct (Nat.eqb (List.length (filter (has_id i) (table db))) 0);
    reflexivity.
Qed.

Lemma sql_delete_absent (i : dssmodels.ID) (t : list scd_operations.row) :
  filter (has_id i) t = [] -> sql_delete i t = t.
Proof.
  unfold sql_delete. induction t as [| x t IH]; simpl; [reflexivity|].
  destruct (has_id i x) eqn:E; simpl; [discriminate|].
  intros Hf. now rewrite IH.
Qed.

(** The key and the range of the cells hold in every reachable store. *)
Lemma reachable_keyed (db : DB) : reachable db -> keyed (table db).
Proof.
  induction 1 as [now | db now _ IH | db op _ IH | db i _ IH]; simpl.
  - constructor.
  - assumption.
  - rewrite UpsertOperationalIntent_run. simpl.
    destruct (scd_operations_check _); simpl; [now apply keyed_upsert | assumption].
  - rewrite DeleteOperationalIntent_run. simpl. now apply keyed_delete.
Qed.

Lemma reachable_cells_int64 (db : DB) : reachable db -> cells_int64 (table db).
Proof.
  unfold cells_int64.
  induction 1 as [now | db now _ IH | db op _ IH | db i _ IH]; simpl.
  - constructor.
  - assumption.
  - rewrite UpsertOperationalIntent_run. simpl.
    destruct (scd_operations_check _); simpl; [|assumption].
    apply Forall_forall. intros x Hx. apply in_upsert in Hx.
    destruct Hx as [-> | [Hx _]].
    + simpl. apply Forall_forall. intros z Hz. apply in_map_iff in Hz.
      destruct Hz as (c & <- & _). apply to_int64_range.
    + rewrite Forall_forall in IH. now apply IH.
  - rewrite DeleteOperationalIntent_run. simpl.
    apply Forall_forall. intros x Hx. unfold sql_delete in Hx.
    apply filter_In in Hx. rewrite Forall_forall in IH. now apply IH.
Qed.

End FetchFacts.

(** ** Claims about get, delete and the two fetch paths *)

Section RepositoryClaims.
Context `{Collaborators}.

Lemma fetchOperationalIntents_run (q : OperationQuery) (db db' : DB)
    (rows : list scd_operations.row) :
  QueryContext q db = (Ok rows, db') ->
  fetchOperationalIntents q db
  = (Ok (map (expanded db') (map scan_row rows)), db').
Proof.
  intros Hq. unfold fetchOperationalIntents, bind, wrap. rewrite Hq.
  apply populate_payload_run.
Qed.

Lemma fetchOperationalIntent_many (q : OperationQuery) (db db' : DB)
    (rows : list scd_operations.row) :
  QueryContext q db = (Ok rows, db') ->
  1 < List.length rows ->
  fetchOperationalIntent q db
  = (Err (NewError ("Query returned " ++ Sprintf_d (List.length rows)
                    ++ " Operations when only 0 or 1 was expected")), db').
Proof.
  intros Hq Hlen. unfold fetchOperationalIntent, bind.
  rewrite (fetchOperationalIntents_run _ _ _ _ Hq).
  rewrite !length_map.
  apply Nat.ltb_lt in Hlen. rewrite Hlen. reflexivity.
Qed.

(** C10. For an id with no stored row, [GetOperationalIntent] returns a nil
    entity and a nil error and leaves the store as it is.  A single-entity
    fetch whose statement yields more than one row returns an error (and no
    entity); in particular [GetOperationalIntent] does when several rows
    carry the id. *)
Theorem GetOperationalIntent_absent_or_many (db : DB) (i : dssmodels.ID) :
  (~ stored i db -> GetOperationalIntent i db = (Ok None, db))
  /\ (1 < List.length (filter (has_id i) (table db)) ->
      exists e, GetOperationalIntent i db = (Err e, db))
  /\ (forall (q : OperationQuery) (rows : list scd_operations.row) (db' : DB),
        QueryContext q db = (Ok rows, db') ->
        1 < List.length rows ->
        exists e, fetchOperationalIntent q db = (Err e, db')).
Proof.
  split; [|split].
  - intros Hn. unfold GetOperationalIntent, fetchOperationByID,
      fetchOperationalIntent, bind.
    rewrite fetch_SelectByID, (not_stored_filter _ _ Hn). reflexivity.
  - intros Hlen. eexists. unfold GetOperationalIntent, fetchOperationByID.
    apply fetchOperationalIntent_many with (rows := filter (has_id i) (table db));
      [reflexivity | assumption].
  - intros q rows db' Hq Hlen. eexists.
    now apply fetchOperationalIntent_many with (rows := rows).
Qed.

Lemma sql_delete_removes (i : dssmodels.ID) (t : list scd_operations.row) :
  filter (has_id i) (sql_delete i t) = [].
Proof.
  unfold sql_delete. induction t as [| x t IH]; simpl; [reflexivity|].
  destruct (has_id i x) eqn:E; simpl; [assumption|].
  now rewrite E.
Qed.



(** C9. For every stored row, the cell set of the core row fetch (the
    [cells] column as scanned and handed to [SetCells]) and the cell set of
    the unnested query path agree.  The unnested path is taken on its own:
    whatever cells an entity with the id of the row carries when
    [populateOperationalIntentCells] is called, the call leaves it with
    exactly the stored array, cell by cell, which is what [SetCells] makes
    of the scanned column.  So the expansion of the scanned row gives the
    scanned row back, and [GetOperationalIntent] returns the entity with
    these cells. *)
Theorem fetch_paths_agree_on_cells (db : DB) (r : scd_operations.row) :
  keyed (table db) ->
  In r (table db) ->
  (forall o,
     ID o = scd_operations.id r ->
     exists o',
       populateOperationalIntentCells o db = (Ok o', db)
       /\ Cells o' = map to_uint64 (scd_operations.cells r)
       /\ Cells o' = Cells (SetCells o (scd_operations.cells r))
       /\ o' = set_Cells o (Cells (scan_row r)))
  /\ (forall c,
        populateOperationalIntentCells (set_Cells (scan_row r) c) db
        = (Ok (scan_row r), db))
  /\ (exists o,
        populateOperationalIntentCells (scan_row r) db = (Ok o, db)
        /\ Cells o = Cells (scan_row r)
        /\ Cells o = map to_uint64 (scd_operations.cells r)
        /\ GetOperationalIntent (scd_operations.id r) db = (Ok (Some o), db)).
Proof.
  intros Hk Hin.
  assert (Hunnest : forall o, ID o = scd_operations.id r ->
            populateOperationalIntentCells o db
            = (Ok (set_Cells o (map to_uint64 (scd_operations.cells r))), db)).
  { intros o Hid. rewrite populateOperationalIntentCells_run. unfold expanded.
    rewrite Hid, (filter_has_id_keyed _ _ Hk Hin). simpl.
    now rewrite app_nil_r. }
  split; [|split].
  - intros o Hid. eexists. split; [now apply Hunnest|].
    split; [reflexivity|]. split; reflexivity.
  - intros c. rewrite Hunnest by reflexivity. reflexivity.
  - exists (scan_row r).
    rewrite populateOperationalIntentCells_run, (expanded_scan_row _ _ Hk Hin).
    split; [reflexivity|]. split; [reflexivity|]. split; [reflexivity|].
    now apply GetOperationalIntent_stored.
Qed.

End RepositoryClaims.

(** ** Claims about upsert and the version token *)

Section UpsertClaims.
Context `{Collaborators}.

Lemma set_Cells_same (o : OperationalIntent) : set_Cells o (Cells o) = o.
Proof. now destruct o. Qed.

Lemma scan_upsert_row (operation : OperationalIntent) (now : Time) :
  Forall is_uint64 (Cells operation) ->
  set_Cells (scan_row (upsert_row operation now)) (Cells operation)
  = scan_row (upsert_row operation now).
Proof.
  intros Hc. rewrite <- (set_Cells_same (scan_row (upsert_row operation now))) at 2.
  f_equal. simpl. now rewrite map_to_uint64_to_int64.
Qed.

Lemma upsert_ignores_OVN (operation : OperationalIntent) (v : scdmodels.OVN)
    (db : DB) :
  UpsertOperationalIntent (set_OVN operation v) db
  = UpsertOperationalIntent operation db.
Proof. now rewrite !UpsertOperationalIntent_run. Qed.

Lemma get_after_upsert (db : DB) (r : scd_operations.row) (now : Time) :
  keyed (table db) ->
  GetOperationalIntent (scd_operations.id r) (mkDB (sql_upsert r (table db)) now)
  = (Ok (Some (scan_row r)), mkDB (sql_upsert r (table db)) now).
Proof.
  intros Hk. apply GetOperationalIntent_stored; simpl.
  - now apply keyed_upsert.
  - apply upsert_in.
Qed.

(** C6. After a successful upsert the table holds, for the id, exactly the
    row built from the input with [updated_at] equal to the timestamp of
    the transaction, whatever the caller put in the input (its OVN
    included).  The returned entity carries the columns of that row, the
    cells of the input as they were passed, and the OVN computed from the
    new [updated_at] and the id; when the input cells are cell ids
    ([uint64]), a get returns the same entity. *)
Theorem UpsertOperationalIntent_committed (db db' : DB)
    (operation : OperationalIntent) (result : option OperationalIntent) :
  UpsertOperationalIntent operation db = (Ok result, db') ->
  let now := transaction_timestamp db in
  let r := upsert_row operation now in
  In r (table db')
  /\ (forall x, In x (table db') ->
                scd_operations.id x = ID operation ->
                x = r /\ scd_operations.updated_at x = now)
  /\ (forall v, snd (UpsertOperationalIntent (set_OVN operation v) db) = db')
  /\ (exists o,
        result = Some o
        /\ Cells o = Cells operation
        /\ OVN o = NewOVNFromTime now (ID_String (ID operation))
        /\ ID o = scd_operations.id r
        /\ Manager o = scd_operations.owner r
        /\ Version o = scd_operations.version r
        /\ USSBaseURL o = scd_operations.url r
        /\ AltitudeLower o = scd_operations.altitude_lower r
        /\ AltitudeUpper o = scd_operations.altitude_upper r
        /\ StartTime o = scd_operations.starts_at r
        /\ EndTime o = scd_operations.ends_at r
        /\ SubscriptionID o = scd_operations.subscription_id r
        /\ State o = scd_operations.state r)
  /\ (keyed (table db) -> Forall is_uint64 (Cells operation) ->
      GetOperationalIntent (ID operation) db' = (Ok result, db')).
Proof.
  intros Hup now r.
  assert (Hv : forall v, snd (UpsertOperationalIntent (set_OVN operation v) db) = db').
  { intros v. now rewrite upsert_ignores_OVN, Hup. }
  rewrite UpsertOperationalIntent_run in Hup. cbv zeta in Hup.
  fold now in Hup. fold r in Hup.
  destruct (scd_operations_check r); [|discriminate].
  inversion Hup; subst result db'; clear Hup.
  split; [apply upsert_in|].
  split.
  { intros x Hx Hid. simpl in Hx. apply in_upsert in Hx.
    destruct Hx as [-> | [_ Hne]]; [now split|].
    exfalso. apply Hne. now rewrite Hid. }
  split; [exact Hv|].
  split.
  { eexists. split; [reflexivity|]. repeat split. }
  intros Hk Hc.
  replace (ID operation) with (scd_operations.id r) by reflexivity.
  rewrite (get_after_upsert db r now Hk).
  unfold r. now rewrite scan_upsert_row.
Qed.

(** C8, as the code has it.  The OVN is a function of [updated_at] and
    [id], computed when the row is read: a get returns the entity whose OVN
    is [NewOVNFromTime updated_at id], reading changes nothing, and a second
    get returns the same entity.  A successful upsert sets [updated_at] to
    the timestamp of its transaction: when that timestamp differs from the
    stored [updated_at] the OVN changes, given that [NewOVNFromTime] has no
    collisions; when it is the same (a further upsert of the id in the
    same transaction) the OVN stays what it was, whatever the upsert
    wrote.  The OVN is not stored: the table has no column for it and the
    store after an upsert does not depend on the OVN of the input. *)
Theorem OVN_derived_from_updated_at_and_id (db : DB) :
  ovn_collision_free ->
  keyed (table db) ->
  (forall r, In r (table db) ->
     exists o,
       GetOperationalIntent (scd_operations.id r) db = (Ok (Some o), db)
       /\ OVN o = NewOVNFromTime (scd_operations.updated_at r)
                    (ID_String (scd_operations.id r))
       /\ GetOperationalIntent (scd_operations.id r)
            (snd (GetOperationalIntent (scd_operations.id r) db))
          = (Ok (Some o), db))
  /\ (forall r operation result db',
        In r (table db) ->
        ID operation = scd_operations.id r ->
        scd_operations.updated_at r <> transaction_timestamp db ->
        UpsertOperationalIntent operation db = (Ok result, db') ->
        exists before after,
          GetOperationalIntent (scd_operations.id r) db = (Ok (Some before), db)
          /\ GetOperationalIntent (scd_operations.id r) db' = (Ok (Some after), db')
          /\ result = Some (set_Cells after (Cells operation))
          /\ OVN after <> OVN before)
  /\ (forall r operation result db',
        In r (table db) ->
        ID operation = scd_operations.id r ->
        scd_operations.updated_at r = transaction_timestamp db ->
        UpsertOperationalIntent operation db = (Ok result, db') ->
        exists before after,
          GetOperationalIntent (scd_operations.id r) db = (Ok (Some before), db)
          /\ GetOperationalIntent (scd_operations.id r) db' = (Ok (Some after), db')
          /\ result = Some (set_Cells after (Cells operation))
          /\ OVN after = OVN before)
  /\ (forall operation v,
        snd (UpsertOperationalIntent (set_OVN operation v) db)
        = snd (UpsertOperationalIntent operation db))
  /\ ~ In "ovn" operationFieldsWithIndices.
Proof.
  intros Hfree Hk. split; [|split; [|split; [|split]]];
    [| | | | simpl; intuition discriminate].
  - intros r Hin. pose proof (GetOperationalIntent_stored db r Hk Hin) as Hg.
    exists (scan_row r). rewrite Hg. simpl. repeat split; assumption.
  - intros r operation result db' Hin Hid Hts Hup.
    pose proof (GetOperationalIntent_stored db r Hk Hin) as Hg.
    rewrite UpsertOperationalIntent_run in Hup. cbv zeta in Hup.
    destruct (scd_operations_check _); [|discriminate].
    inversion Hup; subst result db'; clear Hup.
    exists (scan_row r), (scan_row (upsert_row operation (transaction_timestamp db))).
    split; [assumption|]. split.
    + replace (scd_operations.id r)
        with (scd_operations.id (upsert_row operation (transaction_timestamp db)))
        by (simpl; assumption).
      now apply get_after_upsert.
    + split; [reflexivity|]. simpl. rewrite Hid. intros Heq.
      apply Hfree in Heq. congruence.
  - intros r operation result db' Hin Hid Hts Hup.
    pose proof (GetOperationalIntent_stored db r Hk Hin) as Hg.
    rewrite UpsertOperationalIntent_run in Hup. cbv zeta in Hup.
    destruct (scd_operations_check _); [|discriminate].
    inversion Hup; subst result db'; clear Hup.
    exists (scan_row r), (scan_row (upsert_row operation (transaction_timestamp db))).
    split; [assumption|]. split.
    + replace (scd_operations.id r)
        with (scd_operations.id (upsert_row operation (transaction_timestamp db)))
        by (simpl; assumption).
      now apply get_after_upsert.
    + split; [reflexivity|]. simpl. now rewrite Hid, Hts.
  - intros operation v. now rewrite upsert_ignores_OVN.
Qed.

(** C1, as the code has it. [UpsertOperationalIntent] takes no expected
    version token and checks none: whatever OVN the input carries, and
    whether or not a row with the id is stored, the upsert writes the row
    as soon as the table accepts it, and gives the same result for every
    OVN in the input.  It fails only when the table refuses the row, with
    an error that carries no code, and then the store is unchanged.  Two
    updates of one id, whatever token they present, both succeed, and a
    later get returns the entity of the second. *)
Theorem UpsertOperationalIntent_checks_no_token (db : DB)
    (operation : OperationalIntent) :
  let now := transaction_timestamp db in
  let r := upsert_row operation now in
  (scd_operations_check r = true ->
     UpsertOperationalIntent operation db
     = (Ok (Some (set_Cells (scan_row r) (Cells operation))),
        mkDB (sql_upsert r (table db)) now))
  /\ (scd_operations_check r = false ->
      exists e, UpsertOperationalIntent operation db = (Err e, db)
                /\ err_code e = NoCode)
  /\ (forall v, UpsertOperationalIntent (set_OVN operation v) db
                = UpsertOperationalIntent operation db)
  /\ (forall (second : OperationalIntent) (later : Time),
        ID second = ID operation ->
        scd_operations_check r = true ->
        scd_operations_check (upsert_row second later) = true ->
        keyed (table db) ->
        Forall is_uint64 (Cells second) ->
        let db1 := snd (UpsertOperationalIntent operation db) in
        let db2 := snd (UpsertOperationalIntent second (mkDB (table db1) later)) in
        exists o1 o2,
          fst (UpsertOperationalIntent operation db) = Ok (Some o1)
          /\ fst (UpsertOperationalIntent second (mkDB (table db1) later))
             = Ok (Some o2)
          /\ GetOperationalIntent (ID operation) db2 = (Ok (Some o2), db2)
          /\ o2 = scan_row (upsert_row second later)).
Proof.
  intros now r. split; [|split; [|split]].
  - intros Hc. rewrite UpsertOperationalIntent_run. cbv zeta.
    fold now. fold r. now rewrite Hc.
  - intros Hc. rewrite UpsertOperationalIntent_run. cbv zeta.
    fold now. fold r. rewrite Hc. eexists. split; reflexivity.
  - intros v. apply upsert_ignores_OVN.
  - intros second later Hid Hc1 Hc2 Hk Hu.
    cbv zeta. rewrite !UpsertOperationalIntent_run. cbv zeta.
    fold now. fold r. rewrite Hc1. simpl. rewrite Hc2. simpl.
    exists (set_Cells (scan_row r) (Cells operation)),
           (set_Cells (scan_row (upsert_row second later)) (Cells second)).
    split; [reflexivity|]. split; [reflexivity|].
    rewrite scan_upsert_row by assumption. split; [|reflexivity].
    replace (ID operation)
      with (scd_operations.id (upsert_row second later))
      by (simpl; assumption).
    apply (get_after_upsert (mkDB (sql_upsert r (table db)) now)).
    simpl. now apply keyed_upsert.
Qed.

End UpsertClaims.

(** ** Claims about the search *)

Section SearchClaims.
Context `{Collaborators}.

Lemma array_overlap_true (a b : list Z) :
  array_overlap a b = true <-> exists x, In x a /\ In x b.
Proof.
  unfold array_overlap. rewrite existsb_exists. split.
  - intros (x & Ha & Hb). apply existsb_exists in Hb.
    destruct Hb as (y & Hy & Heq). apply Z.eqb_eq in Heq. subst y.
    now exists x.
  - intros (x & Ha & Hb). exists x. split; [assumption|].
    apply existsb_exists. exists x. split; [assumption | apply Z.eqb_refl].
Qed.

Lemma overlap_as_cells (stored_cells : list Z) (cover : CellUnion) :
  Forall is_int64 stored_cells ->
  Forall is_uint64 cover ->
  array_overlap stored_cells (map to_int64 cover) = true
  <-> cells_intersect (map to_uint64 stored_cells) cover.
Proof.
  intros Hs Hc. rewrite array_overlap_true. unfold cells_intersect.
  rewrite Forall_forall in Hs, Hc. split.
  - intros (x & Hx & Hin). apply in_map_iff in Hin.
    destruct Hin as (c & Hcx & Hcin). exists c. split; [|assumption].
    apply in_map_iff. exists x. split; [|assumption].
    subst x. now apply to_uint64_to_int64, Hc.
  - intros (c & Hin & Hcin). apply in_map_iff in Hin.
    destruct Hin as (x & Hxc & Hx). exists x. split; [assumption|].
    apply in_map_iff. exists c. split; [|assumption].
    subst c. now apply to_int64_to_uint64, Hs.
Qed.

Lemma COALESCE_ge {A} (leb : A -> A -> bool) (entity filter : option A) :
  COALESCE (sql_ge leb entity filter) true = true
  <-> (entity = None
       \/ bound_allows (fun a b => leb a b = true) filter entity).
Proof.
  destruct entity as [a|], filter as [b|]; simpl; intuition congruence.
Qed.

Lemma COALESCE_le {A} (leb : A -> A -> bool) (entity filter : option A) :
  COALESCE (sql_le leb entity filter) true = true
  <-> (entity = None
       \/ bound_allows (fun a b => leb a b = true) entity filter).
Proof.
  destruct entity as [a|], filter as [b|]; simpl; intuition congruence.
Qed.

Lemma bound_allows_Zle (x y : option Z) :
  bound_allows (fun a b => (a <=? b)%Z = true) x y <-> bound_allows Z.le x y.
Proof.
  destruct x, y; simpl; try tauto. apply Z.leb_le.
Qed.

(** The WHERE clause says what the matching rule says. *)
Lemma intersecting_where_rule (r : scd_operations.row) (cover : CellUnion)
    (vol : Volume3D) (v4d : Volume4D) :
  Forall is_int64 (scd_operations.cells r) ->
  Forall is_uint64 cover ->
  intersecting_where (map to_int64 cover) (AltitudeLo vol) (AltitudeHi vol)
    (V4StartTime v4d) (V4EndTime v4d) r = true
  <-> matching_rule (scan_row r) cover vol v4d.
Proof.
  intros Hs Hc. unfold intersecting_where, matching_rule, altitude_matches,
    end_matches, start_matches.
  rewrite !andb_true_iff, (overlap_as_cells _ _ Hs Hc),
    !COALESCE_ge, !COALESCE_le, !bound_allows_Zle.
  simpl. unfold alt_le. tauto.
Qed.

Lemma searchOperationalIntents_run (db : DB) (v4d : Volume4D) (vol : Volume3D)
    (footprint : Geometry) (cover : CellUnion) :
  SpatialVolume v4d = Some vol ->
  Footprint vol = Some footprint ->
  CalculateCovering footprint = inr cover ->
  cover <> [] ->
  searchOperationalIntents v4d db
  = (Ok (map (expanded db)
           (map scan_row
              (filter (intersecting_where (map to_int64 cover) (AltitudeLo vol)
                         (AltitudeHi vol) (V4StartTime v4d) (V4EndTime v4d))
                 (table db)))), db).
Proof.
  intros Hv Hf Hc Hne. unfold searchOperationalIntents.
  rewrite Hv, Hf, Hc. destruct cover as [| c cover]; [congruence|]. simpl.
  unfold wrap. now rewrite fetch_SelectIntersecting.
Qed.

(** C2. For a filter with a footprint whose covering is not empty, the
    search returns an entity exactly when it is the entity of a stored row
    and the matching rule holds: its cells meet the cells of the filter,
    and each of its altitude and time bounds is absent or within the bound
    of the filter (an absent bound of the filter constrains nothing).  The
    end bound is inclusive: an entity that ends at [T] is returned by a
    filter that starts at [T] when the rest of the rule holds. *)
Theorem searchOperationalIntents_matching_rule (db : DB) (v4d : Volume4D)
    (vol : Volume3D) (footprint : Geometry) (cover : CellUnion) :
  SpatialVolume v4d = Some vol ->
  Footprint vol = Some footprint ->
  CalculateCovering footprint = inr cover ->
  cover <> [] ->
  Forall is_uint64 cover ->
  keyed (table db) ->
  cells_int64 (table db) ->
  exists result,
    searchOperationalIntents v4d db = (Ok result, db)
    /\ (forall e, In e result
                  <-> (exists r, In r (table db) /\ e = scan_row r)
                      /\ matching_rule e cover vol v4d)
    /\ (forall r T,
          In r (table db) ->
          scd_operations.ends_at r = Some T ->
          V4StartTime v4d = Some T ->
          cells_intersect (Cells (scan_row r)) cover ->
          altitude_matches (scan_row r) vol ->
          start_matches (scan_row r) v4d ->
          In (scan_row r) result).
Proof.
  intros Hv Hf Hc Hne Hu Hk Hi.
  eexists. split; [now apply (searchOperationalIntents_run db v4d vol footprint cover)|].
  rewrite (expanded_filter _ _ Hk).
  assert (Hrule : forall e,
    In e (map scan_row
            (filter (intersecting_where (map to_int64 cover) (AltitudeLo vol)
                       (AltitudeHi vol) (V4StartTime v4d) (V4EndTime v4d))
               (table db)))
    <-> (exists r, In r (table db) /\ e = scan_row r)
        /\ matching_rule e cover vol v4d).
  { intros e. rewrite in_map_iff. unfold cells_int64 in Hi.
    rewrite Forall_forall in Hi. split.
    - intros (r & <- & Hin). apply filter_In in Hin. destruct Hin as [Hin Hw].
      split; [now exists r|].
      now apply (intersecting_where_rule r cover vol v4d (Hi r Hin) Hu).
    - intros [(r & Hin & ->) Hm]. exists r. split; [reflexivity|].
      apply filter_In. split; [assumption|].
      now apply (intersecting_where_rule r cover vol v4d (Hi r Hin) Hu). }
  split; [exact Hrule|].
  intros r T Hin He Hs Hcells Halt Hstart. apply Hrule.
  split; [now exists r|].
  unfold matching_rule. repeat split; try assumption; try apply Halt.
  unfold end_matches. right. simpl. rewrite Hs, He. simpl. apply Z.le_refl.
Qed.

Lemma searchOperationalIntents_cases (db : DB) (v4d : Volume4D) :
  match footprint_of v4d with
  | None =>
      searchOperationalIntents v4d db
      = (Err (NewErrorWithCode BadRequest
                "Missing geospatial footprint for query"), db)
  | Some footprint =>
      match CalculateCovering footprint with
      | inl err =>
          searchOperationalIntents v4d db
          = (Err (PropagateWithCode err BadRequest
                    "Failed to calculate footprint covering"), db)
      | inr [] =>
          searchOperationalIntents v4d db
          = (Err (NewErrorWithCode BadRequest "Missing cell IDs for query"), db)
      | inr (_ :: _) =>
          exists result, searchOperationalIntents v4d db = (Ok result, db)
      end
  end.
Proof.
  unfold footprint_of, searchOperationalIntents.
  destruct (SpatialVolume v4d) as [vol|]; [|reflexivity].
  destruct (Footprint vol) as [footprint|]; [|reflexivity].
  destruct (CalculateCovering footprint) as [err | [| c cover]];
    try reflexivity.
  simpl. unfold wrap. rewrite fetch_SelectIntersecting. now eexists.
Qed.

(** C7, as the code has it.  The search fails exactly when the filter has no
    footprint, or the covering of the footprint cannot be computed, or the
    covering is empty; each of these failures carries the code
    [BadRequest] and leaves the store as it is.  A filter with a non-empty
    covering whose cells meet the cells of no stored entity gets the empty
    list and no error. *)
Theorem searchOperationalIntents_rejections (db : DB) (v4d : Volume4D) :
  ((exists e, fst (searchOperationalIntents v4d db) = Err e
               /\ err_code e = BadRequest)
   <-> (footprint_of v4d = None
        \/ (exists footprint err,
              footprint_of v4d = Some footprint
              /\ CalculateCovering footprint = inl err)
        \/ (exists footprint,
              footprint_of v4d = Some footprint
              /\ CalculateCovering footprint = inr [])))
  /\ (forall e, fst (searchOperationalIntents v4d db) = Err e ->
                err_code e = BadRequest
                /\ snd (searchOperationalIntents v4d db) = db)
  /\ (forall footprint cover,
        footprint_of v4d = Some footprint ->
        CalculateCovering footprint = inr cover ->
        cover <> [] ->
        Forall is_uint64 cover ->
        cells_int64 (table db) ->
        (forall r, In r (table db) ->
                   ~ cells_intersect (Cells (scan_row r)) cover) ->
        searchOperationalIntents v4d db = (Ok [], db)).
Proof.
  pose proof (searchOperationalIntents_cases db v4d) as Hcases.
  split; [|split].
  - destruct (footprint_of v4d) as [footprint|] eqn:Ef.
    + destruct (CalculateCovering footprint) as [err | [| c cover]] eqn:Ec.
      * rewrite Hcases. simpl. split; [|eexists; split; reflexivity].
        intros _. right. left. now exists footprint, err.
      * rewrite Hcases. simpl. split; [|eexists; split; reflexivity].
        intros _. right. right. now exists footprint.
      * destruct Hcases as (result & ->). simpl. split.
        -- intros (e & He & _). discriminate.
        -- intros [Hn | [(g & err & Hg & Hc) | (g & Hg & Hc)]]; congruence.
    + rewrite Hcases. simpl. split; [|eexists; split; reflexivity].
      intros _. now left.
  - intros e He. destruct (footprint_of v4d) as [footprint|].
    + destruct (CalculateCovering footprint) as [err | [| c cover]].
      * rewrite Hcases in He |- *. simpl in *. inversion He. now split.
      * rewrite Hcases in He |- *. simpl in *. inversion He. now split.
      * destruct Hcases as (result & Hr). rewrite Hr in He. discriminate.
    + rewrite Hcases in He |- *. simpl in *. inversion He. now split.
  - intros footprint cover Hf Hc Hne Hu Hi Hnone. unfold footprint_of in Hf.
    destruct (SpatialVolume v4d) as [vol|] eqn:Ev; [|discriminate].
    rewrite (searchOperationalIntents_run db v4d vol footprint cover Ev Hf Hc Hne).
    replace (filter _ (table db)) with (@nil scd_operations.row); [reflexivity|].
    symmetry. unfold cells_int64 in Hi. rewrite Forall_forall in Hi.
    induction (table db) as [| x t IH]; [reflexivity|]. simpl.
    destruct (intersecting_where _ _ _ _ _ x) eqn:Ew.
    + exfalso. apply (Hnone x); [now left|].
      apply (intersecting_where_rule x cover vol v4d) in Ew;
        [apply Ew | apply Hi; now left | assumption].
    + apply IH; intros; [apply Hi | apply Hnone]; now right.
Qed.

End SearchClaims.

(** ** The transaction guard *)

Section GuardClaims.
Context `{Altitude}.

(** C3, as the code runs.  When a panic is in flight and the transaction is
    open, [recoverRollbackRepanic] rolls the transaction back (the table is
    again what it was when the transaction began) and logs nothing, but it
    leaves no panic in flight: despite its name it never panics again, so
    the function that deferred it returns to its caller as if nothing had
    happened. *)
Theorem recoverRollbackRepanic_swallows_panic
    (body : Goroutine -> Goroutine) (g : Goroutine) (p : string) :
  panicking (body g) = Some p ->
  tx_done (body g) = false ->
  let g' := with_deferred recoverRollbackRepanic body g in
  tx_table g' = tx_begin (body g)
  /\ tx_done g' = true
  /\ logged g' = logged (body g)
  /\ panicking g' = None.
Proof.
  intros Hp Hd. unfold with_deferred, recoverRollbackRepanic, recover, Rollback.
  rewrite Hp. simpl. rewrite Hd. simpl. repeat split.
Qed.

End GuardClaims.

(** ** The schema bootstrap *)

Section BootstrapClaims.
Import Schema.
Local Arguments String.eqb : simpl never.

Lemma lookup_table_app (name : string) (c : Catalog) (t : Table) :
  lookup_table name (c ++ [t])
  = match lookup_table name c with
    | Some x => Some x
    | None => if String.eqb (tbl_name t) name then Some t else None
    end.
Proof.
  unfold lookup_table. induction c as [| x c IH]; simpl.
  - reflexivity.
  - destruct (String.eqb (tbl_name x) name); [reflexivity | exact IH].
Qed.

Lemma lookup_table_ensure (name : string) (t : Table) (c : Catalog) :
  lookup_table name (ensure t c)
  = match lookup_table name c with
    | Some x => Some x
    | None => if String.eqb (tbl_name t) name then Some t else None
    end.
Proof.
  unfold ensure. destruct (lookup_table (tbl_name t) c) as [x|] eqn:E.
  - destruct (lookup_table name c) eqn:En; [reflexivity|].
    destruct (String.eqb (tbl_name t) name) eqn:Eq; [|reflexivity].
    apply String.eqb_eq in Eq. congruence.
  - apply lookup_table_app.
Qed.

Lemma lookup_table_none (name : string) (c : Catalog) :
  lookup_table name c = None -> ~ In name (map tbl_name c).
Proof.
  unfold lookup_table. induction c as [| x c IH]; simpl; [tauto|].
  destruct (String.eqb (tbl_name x) name) eqn:E; [discriminate|].
  apply String.eqb_neq in E. intros Hn [Heq | Hin]; [congruence | now apply IH].
Qed.

Lemma ensure_NoDup (t : Table) (c : Catalog) :
  NoDup (map tbl_name c) -> NoDup (map tbl_name (ensure t c)).
Proof.
  intros Hn. unfold ensure.
  destruct (lookup_table (tbl_name t) c) eqn:E; [assumption|].
  rewrite map_app. simpl.
  apply NoDup_app; [assumption | constructor; [simpl; tauto | constructor] |].
  intros a Ha [<- | []]. now apply (lookup_table_none _ _ E).
Qed.

Lemma Bootstrap_run (c : Catalog) :
  Bootstrap c
  = (Ok tt, ensure identification_service_areas (ensure subscriptions c)).
Proof.
  unfold Bootstrap, query, ExecContext, bind, exec_statement, ensure.
  destruct (lookup_table (tbl_name subscriptions) c);
    destruct (lookup_table (tbl_name identification_service_areas) _);
    reflexivity.
Qed.

Lemma ensure_present (t x : Table) (c : Catalog) :
  lookup_table (tbl_name t) c = Some x -> ensure t c = c.
Proof. unfold ensure. now intros ->. Qed.

Ltac split_andb :=
  repeat match goal with
         | H : (_ && _)%bool = true |- _ =>
             apply andb_true_iff in H; destruct H
         end.

Lemma subscriptions_accepts (r : SqlRow) :
  accepts subscriptions r = true ->
  (exists x l, r "cells" = VArray (x :: l))
  /\ (forall s e, r "starts_at" = VTime s -> r "ends_at" = VTime e ->
                  (s < e)%Z).
Proof.
  unfold accepts, subscriptions, column_accepts, check_passes. simpl.
  intros Hacc. split_andb. split.
  - destruct (r "cells") as [| | | | | [| x l]]; simpl in *; try discriminate.
    now exists x, l.
  - intros s e Hs He.
    repeat match goal with
           | H : context [r "starts_at"] |- _ => rewrite Hs, He in H; simpl in H
           end.
    destruct (s <? e)%Z eqn:E; [now apply Z.ltb_lt | discriminate].
Qed.

Lemma identification_service_areas_accepts (r : SqlRow) :
  accepts identification_service_areas r = true ->
  (exists x l, r "cells" = VArray (x :: l))
  /\ (forall s e, r "starts_at" = VTime s -> r "ends_at" = VTime e ->
                  (s < e)%Z).
Proof.
  unfold accepts, identification_service_areas, column_accepts, check_passes.
  simpl.
  intros Hacc. split_andb. split.
  - destruct (r "cells") as [| | | | | [| x l]]; simpl in *; try discriminate.
    now exists x, l.
  - intros s e Hs He.
    repeat match goal with
           | H : context [r "starts_at"] |- _ => rewrite Hs, He in H; simpl in H
           end.
    destruct (s <? e)%Z eqn:E; [now apply Z.ltb_lt | discriminate].
Qed.

(** C4, as the code has it.  [Bootstrap] never fails.  It creates, when
    they are absent, two row stores, [subscriptions] and
    [identification_service_areas], and nothing else; a table that exists
    is left as it is.  Each of the two takes only rows whose [cells] is a
    non-null, non-empty array and whose [starts_at] is before [ends_at]
    when both are there.  Run again on its own result it does not fail and
    changes nothing, and table names that were distinct stay distinct. *)
Theorem Bootstrap_creates_two_row_stores (c : Catalog) :
  let c' := snd (Bootstrap c) in
  fst (Bootstrap c) = Ok tt
  /\ Bootstrap c' = (Ok tt, c')
  /\ (forall name t, lookup_table name c = Some t ->
                     lookup_table name c' = Some t)
  /\ (forall t, t = subscriptions \/ t = identification_service_areas ->
        (lookup_table (tbl_name t) c = None ->
         lookup_table (tbl_name t) c' = Some t)
        /\ (forall r, accepts t r = true ->
              (exists x l, r "cells" = VArray (x :: l))
              /\ (forall s e, r "starts_at" = VTime s ->
                              r "ends_at" = VTime e -> (s < e)%Z)))
  /\ (forall name t, lookup_table name c' = Some t ->
        lookup_table name c = Some t
        \/ t = subscriptions \/ t = identification_service_areas)
  /\ (NoDup (map tbl_name c) -> NoDup (map tbl_name c')).
Proof.
  cbv zeta. rewrite !Bootstrap_run. simpl.
  set (c1 := ensure subscriptions c).
  set (c2 := ensure identification_service_areas c1).
  assert (Hl2 : forall name, lookup_table name c2
            = match lookup_table name c with
              | Some x => Some x
              | None =>
                  if String.eqb "subscriptions" name then Some subscriptions
                  else if String.eqb "identification_service_areas" name
                       then Some identification_service_areas else None
              end).
  { intros name. unfold c2, c1. rewrite !lookup_table_ensure. simpl.
    destruct (lookup_table name c); [reflexivity|].
    destruct (String.eqb "subscriptions" name); reflexivity. }
  split; [reflexivity|]. split.
  { f_equal.
    assert (H1 : exists x, lookup_table (tbl_name subscriptions) c2 = Some x).
    { rewrite Hl2. simpl. destruct (lookup_table "subscriptions" c); eauto. }
    destruct H1 as (x & H1). rewrite (ensure_present _ _ _ H1).
    assert (H2 : exists y, lookup_table (tbl_name identification_service_areas) c2 = Some y).
    { rewrite Hl2. simpl.
      destruct (lookup_table "identification_service_areas" c); eauto. }
    destruct H2 as (y & H2). now rewrite (ensure_present _ _ _ H2). }
  split.
  { intros name t Hl. now rewrite Hl2, Hl. }
  split.
  { intros t [-> | ->]; (split; [intros Hn; rewrite Hl2, Hn; reflexivity|]).
    - apply subscriptions_accepts.
    - apply identification_service_areas_accepts. }
  split.
  { intros name t. rewrite Hl2. destruct (lookup_table name c); [now left|].
    destruct (String.eqb "subscriptions" name); [intros [= <-]; tauto|].
    destruct (String.eqb "identification_service_areas" name);
      [intros [= <-]; tauto | discriminate]. }
  intros Hn. unfold c2, c1. now apply ensure_NoDup, ensure_NoDup.
Qed.

End BootstrapClaims.

(** ** The claims on the concrete instance *)

Module Witnesses.
Import Fixture.
#[local] Existing Instance altitude.
#[local] Existing Instance collaborators.

Lemma keyed_db0 : keyed (table db0).
Proof. constructor; [intros [] | constructor]. Qed.

Lemma keyed_db_same_transaction : keyed (table db_same_transaction).
Proof. constructor; [intros [] | constructor]. Qed.

Lemma cells_int64_db0 : cells_int64 (table db0).
Proof.
  repeat constructor; unfold is_int64; simpl; lia.
Qed.

Lemma append_inj_l (p a b : string) : (p ++ a = p ++ b)%string -> a = b.
Proof.
  induction p as [| c p IH]; simpl; intros Heq; [assumption|].
  apply IH. now inversion Heq.
Qed.

Lemma ovn_has_no_collisions : ovn_collision_free.
Proof.
  intros t1 t2 salt Heq. simpl in Heq. unfold ovn in Heq.
  apply append_inj_l in Heq. simpl in Heq. inversion Heq as [Hs].
  apply (f_equal NilEmpty.int_of_string) in Hs.
  rewrite !NilEmpty.isi in Hs. inversion Hs as [Hi].
  apply (f_equal Z.of_int) in Hi. now rewrite !DecimalZ.of_to in Hi.
Qed.

Lemma op9_not_stored : ~ stored "op-9" db0.
Proof. intros (r & [<- | []] & Hid). discriminate. Qed.

Lemma GetOperationalIntent_absent_or_many_witness :
  GetOperationalIntent "op-9" db0 = (Ok None, db0)
  /\ exists e, GetOperationalIntent "op-1" db_twice = (Err e, db_twice).
Proof.
  split.
  - apply (proj1 (GetOperationalIntent_absent_or_many db0 "op-9")).
    exact op9_not_stored.
  - apply (proj1 (proj2 (GetOperationalIntent_absent_or_many db_twice "op-1"))).
    simpl. lia.
Defined.


Lemma fetch_paths_agree_on_cells_witness :
  (exists o',
     populateOperationalIntentCells second_update db0 = (Ok o', db0)
     /\ Cells o' = [100%Z; 101%Z]
     /\ Cells o' = Cells (SetCells second_update (scd_operations.cells row0)))
  /\ populateOperationalIntentCells (set_Cells (scan_row row0) []) db0
     = (Ok (scan_row row0), db0)
  /\ GetOperationalIntent "op-1" db0 = (Ok (Some (scan_row row0)), db0).
Proof.
  pose proof (fetch_paths_agree_on_cells db0 row0 keyed_db0 (or_introl eq_refl))
    as (Hany & Hreset & (o & Hp & _ & _ & Hg)).
  split; [|split].
  - destruct (Hany second_update eq_refl) as (o' & Hrun & Hcells & Hcore & _).
    exists o'. split; [exact Hrun|]. split; [|exact Hcore].
    rewrite Hcells. reflexivity.
  - exact (Hreset []).
  - rewrite populateOperationalIntentCells_run in Hp.
    rewrite (expanded_scan_row db0 row0 keyed_db0 (or_introl eq_refl)) in Hp.
    inversion Hp; subst o. exact Hg.
Defined.

Lemma UpsertOperationalIntent_committed_witness :
  exists result db',
    UpsertOperationalIntent stale_update db0 = (Ok result, db')
    /\ In (upsert_row stale_update 200%Z) (table db')
    /\ GetOperationalIntent "op-1" db' = (Ok result, db').
Proof.
  eexists. eexists. split; [reflexivity|].
  pose proof (UpsertOperationalIntent_committed db0 _ stale_update _ eq_refl)
    as Hc.
  cbv zeta in Hc. split.
  - exact (proj1 Hc).
  - apply (proj2 (proj2 (proj2 (proj2 Hc)))).
    + exact keyed_db0.
    + repeat constructor; unfold is_uint64; simpl; lia.
Defined.

Lemma OVN_derived_from_updated_at_and_id_witness :
  (exists o,
     GetOperationalIntent "op-1" db0 = (Ok (Some o), db0)
     /\ OVN o = "op-1@100")
  /\ (exists before after,
        GetOperationalIntent "op-1" db0 = (Ok (Some before), db0)
        /\ GetOperationalIntent "op-1"
             (snd (UpsertOperationalIntent stale_update db0))
           = (Ok (Some after), snd (UpsertOperationalIntent stale_update db0))
        /\ OVN after <> OVN before)
  /\ (exists before after,
        GetOperationalIntent "op-1" db_same_transaction
        = (Ok (Some before), db_same_transaction)
        /\ GetOperationalIntent "op-1"
             (snd (UpsertOperationalIntent second_update db_same_transaction))
           = (Ok (Some after),
              snd (UpsertOperationalIntent second_update db_same_transaction))
        /\ OVN after = OVN before).
Proof.
  pose proof (OVN_derived_from_updated_at_and_id db0 ovn_has_no_collisions
                keyed_db0) as [Hread [Hwrite _]].
  pose proof (OVN_derived_from_updated_at_and_id db_same_transaction
                ovn_has_no_collisions keyed_db_same_transaction)
    as [_ [_ [Hsame _]]].
  split; [|split].
  - destruct (Hread row0 (or_introl eq_refl)) as (o & Hg & Hovn & _).
    exists o. split; [exact Hg | rewrite Hovn; reflexivity].
  - destruct (Hwrite row0 stale_update _ _ (or_introl eq_refl) eq_refl
                ltac:(simpl; lia) eq_refl)
      as (before & after & Hb & Ha & _ & Hne).
    exists before, after. repeat split; assumption.
  - destruct (Hsame (upsert_row stale_update 200%Z) second_update _ _
                (or_introl eq_refl) eq_refl eq_refl eq_refl)
      as (before & after & Hb & Ha & _ & Heq).
    exists before, after. split; [exact Hb|]. split; [exact Ha | exact Heq].
Defined.

(** C8 fails on the code: in the transaction that has just written [op-1]
    (the store is the one the first upsert left), a second upsert of [op-1]
    succeeds and replaces the row (another url, other cells), and a get
    returns the OVN it returned before. *)
Lemma upsert_in_same_transaction_keeps_OVN :
  snd (UpsertOperationalIntent stale_update db0) = db_same_transaction
  /\ (exists o,
     fst (UpsertOperationalIntent second_update db_same_transaction)
     = Ok (Some o))
  /\ table (snd (UpsertOperationalIntent second_update db_same_transaction))
     <> table db_same_transaction
  /\ (exists before after,
        GetOperationalIntent "op-1" db_same_transaction
        = (Ok (Some before), db_same_transaction)
        /\ GetOperationalIntent "op-1"
             (snd (UpsertOperationalIntent second_update db_same_transaction))
           = (Ok (Some after),
              snd (UpsertOperationalIntent second_update db_same_transaction))
        /\ USSBaseURL after <> USSBaseURL before
        /\ OVN after = OVN before).
Proof.
  split; [vm_compute; reflexivity|]. split; [|split].
  - eexists. reflexivity.
  - vm_compute. discriminate.
  - eexists. eexists. split; [reflexivity|]. split; [reflexivity|].
    split; [vm_compute; discriminate | reflexivity].
Qed.

Lemma UpsertOperationalIntent_checks_no_token_witness :
  exists o db',
    UpsertOperationalIntent stale_update db0 = (Ok (Some o), db')
    /\ USSBaseURL o = "https://uss1.example/op-1/v2".
Proof.
  pose proof (UpsertOperationalIntent_checks_no_token db0 stale_update) as Hc.
  cbv zeta in Hc. eexists. eexists. split.
  - apply (proj1 Hc). reflexivity.
  - reflexivity.
Defined.

(** C1 fails on the code: the update presents a token that is not the OVN
    of the stored row, and another one targets an id that is not stored;
    both upserts succeed and the first replaces the stored row. *)
Lemma upsert_with_stale_token_succeeds :
  (exists current,
     GetOperationalIntent "op-1" db0 = (Ok (Some current), db0)
     /\ OVN stale_update <> OVN current)
  /\ (exists o, fst (UpsertOperationalIntent stale_update db0) = Ok (Some o))
  /\ table (snd (UpsertOperationalIntent stale_update db0)) <> table db0
  /\ ~ stored "op-9" db0
  /\ (exists o,
        fst (UpsertOperationalIntent update_of_nonexistent db0) = Ok (Some o)).
Proof.
  split; [|split; [|split; [|split]]].
  - eexists. split; [reflexivity|]. vm_compute. discriminate.
  - eexists. reflexivity.
  - vm_compute. discriminate.
  - exact op9_not_stored.
  - eexists. reflexivity.
Qed.

Lemma searchOperationalIntents_matching_rule_witness :
  exists result,
    searchOperationalIntents filter_at_end db0 = (Ok result, db0)
    /\ In (scan_row row0) result.
Proof.
  destruct (searchOperationalIntents_matching_rule db0 filter_at_end volume
              (Some [101%Z; 200%Z]) [101%Z; 200%Z] eq_refl eq_refl eq_refl
              ltac:(discriminate)
              ltac:(repeat constructor; unfold is_uint64; simpl; lia)
              keyed_db0 cells_int64_db0)
    as (result & Hs & _ & Hend).
  exists result. split; [exact Hs|].
  apply (Hend row0 2000%Z); try reflexivity.
  - now left.
  - exists 101%Z. split; [right; left; reflexivity | left; reflexivity].
  - split; right; simpl; unfold alt_le; reflexivity.
  - right. simpl. lia.
Defined.

Lemma searchOperationalIntents_rejections_witness :
  searchOperationalIntents filter_elsewhere db0 = (Ok [], db0).
Proof.
  apply (proj2 (proj2 (searchOperationalIntents_rejections db0 filter_elsewhere))
           (Some [300%Z]) [300%Z]); try reflexivity.
  - discriminate.
  - repeat constructor; unfold is_uint64; simpl; lia.
  - exact cells_int64_db0.
  - intros r [<- | []] (c & Hc & [<- | []]).
    vm_compute in Hc. destruct Hc as [Hc | [Hc | []]]; discriminate.
Defined.

(** C7 fails on the code: this filter has a footprint and no empty covering
    was computed for it (the covering fails), and the search rejects it
    with [BadRequest]. *)
Lemma search_rejects_failed_covering :
  (exists e,
     fst (searchOperationalIntents filter_degenerate db0) = Err e
     /\ err_code e = BadRequest)
  /\ footprint_of filter_degenerate <> None
  /\ (forall footprint,
        footprint_of filter_degenerate = Some footprint ->
        CalculateCovering footprint <> inr []).
Proof.
  split; [|split].
  - eexists. split; reflexivity.
  - discriminate.
  - intros footprint [= <-]. discriminate.
Qed.

Lemma recoverRollbackRepanic_swallows_panic_witness :
  tx_table (recoverRollbackRepanic panicked) = []
  /\ panicking (recoverRollbackRepanic panicked) = None.
Proof.
  pose proof (recoverRollbackRepanic_swallows_panic (fun g => g) panicked
                "runtime error: index out of range" eq_refl eq_refl) as Hg.
  cbv zeta in Hg. unfold with_deferred in Hg.
  split; [exact (proj1 Hg) | exact (proj2 (proj2 (proj2 Hg)))].
Defined.

Lemma Bootstrap_creates_two_row_stores_witness :
  Schema.Bootstrap (snd (Schema.Bootstrap [])) = (Ok tt, snd (Schema.Bootstrap []))
  /\ Schema.lookup_table "subscriptions" (snd (Schema.Bootstrap []))
     = Some Schema.subscriptions.
Proof.
  pose proof (Bootstrap_creates_two_row_stores []) as Hb. cbv zeta in Hb.
  split.
  - exact (proj1 (proj2 Hb)).
  - apply (proj1 (proj1 (proj2 (proj2 (proj2 Hb))) Schema.subscriptions
                    (or_introl eq_refl))).
    reflexivity.
Defined.

(** C4 fails on the code: on an empty catalogue [Bootstrap] leaves two
    tables, and none of them is the table of the Operational Intents. *)
Lemma Bootstrap_creates_no_operational_intent_store :
  map Schema.tbl_name (snd (Schema.Bootstrap []))
  = ["subscriptions"; "identification_service_areas"]
  /\ Schema.lookup_table Schema.operational_intents_table
       (snd (Schema.Bootstrap [])) = None
  /\ ~ (3 <= List.length (snd (Schema.Bootstrap []))).
Proof.
  split; [reflexivity | split; [reflexivity|]]. simpl. lia.
Qed.

End Witnesses.

(** * Further properties of the repository *)

Section RepositoryLaws.
Context `{Collaborators}.

Lemma filter_has_id_upsert_other (j : dssmodels.ID) (r : scd_operations.row)
    (t : list scd_operations.row) :
  j <> scd_operations.id r ->
  filter (has_id j) (sql_upsert r t) = filter (has_id j) t.
Proof.
  intros Hne. unfold sql_upsert.
  assert (Hr : has_id j r = false) by (apply has_id_false; congruence).
  destruct (existsb (has_id (scd_operations.id r)) t).
  - induction t as [| x t IH]; simpl; [reflexivity|].
    destruct (has_id (scd_operations.id r) x) eqn:E.
    + apply has_id_true in E.
      assert (Hx : has_id j x = false) by (apply has_id_false; congruence).
      now rewrite Hr, Hx.
    + destruct (has_id j x); [f_equal|]; exact IH.
  - rewrite filter_app. simpl. rewrite Hr. apply app_nil_r.
Qed.

Lemma filter_has_id_delete_other (i j : dssmodels.ID)
    (t : list scd_operations.row) :
  j <> i -> filter (has_id j) (sql_delete i t) = filter (has_id j) t.
Proof.
  intros Hne. unfold sql_delete. induction t as [| x t IH]; simpl; [reflexivity|].
  destruct (has_id i x) eqn:E; simpl.
  - apply has_id_true in E.
    assert (Hx : has_id j x = false) by (apply has_id_false; congruence).
    now rewrite Hx.
  - destruct (has_id j x); [f_equal|]; exact IH.
Qed.

(** What a get returns depends on the rows with the id only. *)
Lemma GetOperationalIntent_rows (i : dssmodels.ID) (db1 db2 : DB) :
  filter (has_id i) (table db1) = filter (has_id i) (table db2) ->
  fst (GetOperationalIntent i db1) = fst (GetOperationalIntent i db2).
Proof.
  intros Hrows.
  unfold GetOperationalIntent, fetchOperationByID, fetchOperationalIntent, bind.
  rewrite !fetch_SelectByID, <- Hrows.
  replace (map (expanded db2) (map scan_row (filter (has_id i) (table db1))))
    with (map (expanded db1) (map scan_row (filter (has_id i) (table db1)))).
  - destruct (Nat.ltb 1 _); [reflexivity|].
    destruct (map (expanded db1) _); reflexivity.
  - rewrite !map_map. apply map_ext_in. intros r Hr.
    apply filter_In in Hr. destruct Hr as [_ Hid]. apply has_id_true in Hid.
    unfold expanded. replace (ID (scan_row r)) with i by (symmetry; exact Hid).
    now rewrite Hrows.
Qed.

(** X1. When [id] is the key, [GetOperationalIntent] returns an entity
    exactly when a row with the id is stored, and the entity is the scan of
    that row; it returns nil (and no error) exactly when no row has the
    id. *)
Theorem GetOperationalIntent_found_iff_stored (db : DB) (i : dssmodels.ID) :
  keyed (table db) ->
  (forall o,
     GetOperationalIntent i db = (Ok (Some o), db)
     <-> exists r, In r (table db) /\ scd_operations.id r = i /\ o = scan_row r)
  /\ (GetOperationalIntent i db = (Ok None, db) <-> ~ stored i db).
Proof.
  intros Hk.
  destruct (filter (has_id i) (table db)) as [| r l] eqn:E.
  - assert (Hn : ~ stored i db) by (rewrite stored_filter; tauto).
    assert (Hg : GetOperationalIntent i db = (Ok None, db)).
    { unfold GetOperationalIntent, fetchOperationByID, fetchOperationalIntent, bind.
      now rewrite fetch_SelectByID, E. }
    split.
    + intros o. rewrite Hg. split; [discriminate|].
      intros (r & Hin & Hid & _). exfalso. apply Hn. now exists r.
    + tauto.
  - assert (Hr : In r (filter (has_id i) (table db))) by (rewrite E; now left).
    apply filter_In in Hr. destruct Hr as [Hin Hid]. apply has_id_true in Hid.
    subst i. rewrite (GetOperationalIntent_stored db r Hk Hin). split.
    + intros o. split.
      * intros [= <-]. now exists r.
      * intros (r' & Hin' & Hid' & ->). do 3 f_equal.
        pose proof (filter_has_id_keyed _ _ Hk Hin') as Hf.
        rewrite Hid', (filter_has_id_keyed _ _ Hk Hin) in Hf. congruence.
    + split; [discriminate|]. intros Hn. exfalso. apply Hn. now exists r.
Qed.

Lemma GetDependentOperationalIntents_run (sub : dssmodels.ID) (db : DB) :
  GetDependentOperationalIntents sub db
  = (Ok (map scd_operations.id
           (filter (fun r => String.eqb (scd_operations.subscription_id r) sub)
              (table db))), db).
Proof.
  unfold GetDependentOperationalIntents, bind, wrap, QueryContext_dependents, ret.
  do 2 f_equal.
  assert (Hfold : forall (l acc : list dssmodels.ID),
            fold_left (fun dependentOps opID => dependentOps ++ [opID]) l acc
            = acc ++ l).
  { induction l as [| x l IH]; intros acc; simpl.
    - now rewrite app_nil_r.
    - rewrite IH, <- app_assoc. reflexivity. }
  apply Hfold.
Qed.

Lemma searchOperationalIntents_store (v4d : Volume4D) (db : DB) :
  snd (searchOperationalIntents v4d db) = db.
Proof.
  pose proof (searchOperationalIntents_cases db v4d) as Hc.
  destruct (footprint_of v4d) as [footprint|]; [|now rewrite Hc].
  destruct (CalculateCovering footprint) as [err | [| c cover]];
    try now rewrite Hc.
  destruct Hc as (result & ->). reflexivity.
Qed.

(** X2. The read operations never write: after a get, a search, a
    dependents query or the expansion of the cells of an entity, the store
    is the store it was, whatever the operation returned. *)
Theorem reads_leave_the_store (db : DB) :
  (forall i, snd (GetOperationalIntent i db) = db)
  /\ (forall v4d, snd (SearchOperationalIntents v4d db) = db)
  /\ (forall sub, snd (GetDependentOperationalIntents sub db) = db)
  /\ (forall o, snd (populateOperationalIntentCells o db) = db)
  /\ (forall q, match q with
                | UpsertReturning _ _ _ _ _ _ _ _ _ _ _ => True
                | _ => snd (fetchOperationalIntents q db) = db
                end).
Proof.
  split; [|split; [|split; [|split]]].
  - intros i.
    unfold GetOperationalIntent, fetchOperationByID, fetchOperationalIntent, bind.
    rewrite fetch_SelectByID.
    destruct (Nat.ltb 1 _); [reflexivity|].
    destruct (map (expanded db) _); reflexivity.
  - intros v4d. apply searchOperationalIntents_store.
  - intros sub. now rewrite GetDependentOperationalIntents_run.
  - intros o. now rewrite populateOperationalIntentCells_run.
  - intros q. destruct q; [| exact I |].
    + now rewrite fetch_SelectByID.
    + now rewrite fetch_SelectIntersecting.
Qed.

(** X3. In every store built from the empty table by upserts and deletes,
    the id is a key and the stored cells are [int64] values; so a get on
    such a store never returns an error: it returns nil, or the scan of the
    one row with the id. *)
Theorem reachable_store_is_consistent (db : DB) :
  reachable db ->
  keyed (table db)
  /\ cells_int64 (table db)
  /\ (forall i,
        GetOperationalIntent i db = (Ok None, db)
        \/ exists r, In r (table db) /\ scd_operations.id r = i
                     /\ GetOperationalIntent i db = (Ok (Some (scan_row r)), db)).
Proof.
  intros Hr. pose proof (reachable_keyed db Hr) as Hk.
  split; [assumption|]. split; [now apply reachable_cells_int64|].
  intros i. destruct (filter (has_id i) (table db)) as [| r l] eqn:E.
  - left.
    unfold GetOperationalIntent, fetchOperationByID, fetchOperationalIntent, bind.
    now rewrite fetch_SelectByID, E.
  - right. assert (Hin : In r (filter (has_id i) (table db))) by (rewrite E; now left).
    apply filter_In in Hin. destruct Hin as [Hin Hid]. apply has_id_true in Hid.
    exists r. split; [assumption|]. split; [assumption|].
    subst i. now apply GetOperationalIntent_stored.
Qed.

(** X4. [UpsertOperationalIntent] never panics and never returns a nil
    entity without an error: the dereference of the fetched entity at the
    end of the function always finds the row that the UPSERT returned. *)
Theorem UpsertOperationalIntent_never_panics (operation : OperationalIntent)
    (db : DB) :
  (forall p, fst (UpsertOperationalIntent operation db) <> Panic p)
  /\ fst (UpsertOperationalIntent operation db) <> Ok None
  /\ transaction_timestamp (snd (UpsertOperationalIntent operation db))
     = transaction_timestamp db.
Proof.
  rewrite UpsertOperationalIntent_run. cbv zeta.
  destruct (scd_operations_check _); simpl;
    (split; [intros p; discriminate | split; [discriminate | reflexivity]]).
Qed.

End RepositoryLaws.

(** ** How the writes compose *)

Section WriteLaws.
Context `{Collaborators}.

(** X5. An upsert touches one id only: for every other id, a get after the
    upsert returns what it returned before, whether the upsert succeeded or
    not, and the rows with another id are the rows that were there. *)
Theorem UpsertOperationalIntent_leaves_other_ids (db : DB)
    (operation : OperationalIntent) (j : dssmodels.ID) :
  j <> ID operation ->
  let db' := snd (UpsertOperationalIntent operation db) in
  fst (GetOperationalIntent j db') = fst (GetOperationalIntent j db)
  /\ filter (has_id j) (table db') = filter (has_id j) (table db).
Proof.
  intros Hne. cbv zeta.
  assert (Hrows : filter (has_id j)
                    (table (snd (UpsertOperationalIntent operation db)))
                  = filter (has_id j) (table db)).
  { rewrite UpsertOperationalIntent_run. cbv zeta.
    destruct (scd_operations_check _); simpl; [|reflexivity].
    now apply filter_has_id_upsert_other. }
  split; [now apply GetOperationalIntent_rows | exact Hrows].
Qed.

(** X6. A delete touches one id only: afterwards a get of the deleted id
    returns nil without an error, and for every other id a get returns what
    it returned before. *)
Theorem DeleteOperationalIntent_leaves_other_ids (db : DB)
    (i : dssmodels.ID) :
  let db' := snd (DeleteOperationalIntent i db) in
  GetOperationalIntent i db' = (Ok None, db')
  /\ (forall j, j <> i ->
        fst (GetOperationalIntent j db') = fst (GetOperationalIntent j db)).
Proof.
  cbv zeta. rewrite DeleteOperationalIntent_run. simpl. split.
  - unfold GetOperationalIntent, fetchOperationByID, fetchOperationalIntent, bind.
    rewrite fetch_SelectByID. simpl. now rewrite sql_delete_removes.
  - intros j Hne. apply GetOperationalIntent_rows. simpl.
    now apply filter_has_id_delete_other.
Qed.

Lemma sql_delete_upsert_new (r : scd_operations.row)
    (t : list scd_operations.row) :
  filter (has_id (scd_operations.id r)) t = [] ->
  sql_delete (scd_operations.id r) (sql_upsert r t) = t.
Proof.
  intros Hf. unfold sql_upsert.
  assert (He : existsb (has_id (scd_operations.id r)) t = false).
  { destruct (existsb (has_id (scd_operations.id r)) t) eqn:E; [|reflexivity].
    apply existsb_exists in E. destruct E as (x & Hin & Hx).
    assert (Hfx : In x (filter (has_id (scd_operations.id r)) t))
      by (apply filter_In; now split).
    rewrite Hf in Hfx. inversion Hfx. }
  rewrite He. unfold sql_delete. rewrite filter_app. simpl.
  rewrite (proj2 (has_id_true _ _) eq_refl). simpl.
  rewrite app_nil_r. now apply (sql_delete_absent (scd_operations.id r) t).
Qed.

(** X7. A successful upsert followed by the delete of its id: the delete
    succeeds, a later get returns nil, and when the id was not stored
    before the upsert the table is again the table it was. *)
Theorem UpsertOperationalIntent_then_Delete (db db1 : DB)
    (operation : OperationalIntent) (result : option OperationalIntent) :
  UpsertOperationalIntent operation db = (Ok result, db1) ->
  let db2 := snd (DeleteOperationalIntent (ID operation) db1) in
  fst (DeleteOperationalIntent (ID operation) db1) = Ok tt
  /\ GetOperationalIntent (ID operation) db2 = (Ok None, db2)
  /\ (~ stored (ID operation) db -> table db2 = table db).
Proof.
  intros Hup. cbv zeta.
  rewrite UpsertOperationalIntent_run in Hup. cbv zeta in Hup.
  destruct (scd_operations_check _); [|discriminate].
  inversion Hup; subst result db1; clear Hup.
  set (r := upsert_row operation (transaction_timestamp db)).
  split; [|split].
  - rewrite DeleteOperationalIntent_run. simpl.
    destruct (filter (has_id (ID operation)) (sql_upsert r (table db)))
      as [| x l] eqn:E; [|reflexivity].
    exfalso. assert (Hin : In r (filter (has_id (ID operation))
                                   (sql_upsert r (table db)))).
    { apply filter_In. split; [apply upsert_in | now apply has_id_true]. }
    rewrite E in Hin. inversion Hin.
  - rewrite DeleteOperationalIntent_run. simpl.
    unfold GetOperationalIntent, fetchOperationByID, fetchOperationalIntent, bind.
    rewrite fetch_SelectByID. simpl. now rewrite sql_delete_removes.
  - intros Hn. rewrite DeleteOperationalIntent_run. simpl.
    apply (sql_delete_upsert_new r). now apply not_stored_filter.
Qed.

Lemma sql_upsert_twice (r : scd_operations.row) (t : list scd_operations.row) :
  sql_upsert r (sql_upsert r t) = sql_upsert r t.
Proof.
  assert (Hpresent : existsb (has_id (scd_operations.id r)) (sql_upsert r t) = true).
  { apply existsb_exists. exists r. split; [apply upsert_in | now apply has_id_true]. }
  unfold sql_upsert at 1. rewrite Hpresent.
  unfold sql_upsert.
  destruct (existsb (has_id (scd_operations.id r)) t) eqn:E.
  - rewrite map_map. apply map_ext. intros x.
    destruct (has_id (scd_operations.id r) x) eqn:Ex.
    + now rewrite (proj2 (has_id_true _ _) eq_refl).
    + now rewrite Ex.
  - rewrite map_app. simpl. rewrite (proj2 (has_id_true _ _) eq_refl).
    f_equal. rewrite <- (map_id t) at 2. apply map_ext_in. intros x Hx.
    destruct (has_id (scd_operations.id r) x) eqn:Ex; [|reflexivity].
    exfalso. assert (existsb (has_id (scd_operations.id r)) t = true);
      [|congruence].
    apply existsb_exists. now exists x.
Qed.

(** X8. Repeating an upsert in the same transaction changes nothing: the
    second call returns what the first returned and leaves the store of the
    first. *)
Theorem UpsertOperationalIntent_repeated (db : DB)
    (operation : OperationalIntent) :
  let db1 := snd (UpsertOperationalIntent operation db) in
  UpsertOperationalIntent operation db1
  = (fst (UpsertOperationalIntent operation db), db1).
Proof.
  cbv zeta. rewrite !UpsertOperationalIntent_run. cbv zeta.
  destruct (scd_operations_check (upsert_row operation (transaction_timestamp db)))
    eqn:E; simpl; rewrite E; simpl; [|reflexivity].
  now rewrite sql_upsert_twice.
Qed.

(** X9. A successful upsert adds one row when the id is new and keeps the
    number of rows when the id is stored; every row of another id stays in
    the table and no row of another id appears. *)
Theorem UpsertOperationalIntent_row_count (db db' : DB)
    (operation : OperationalIntent) (result : option OperationalIntent) :
  UpsertOperationalIntent operation db = (Ok result, db') ->
  (stored (ID operation) db -> List.length (table db') = List.length (table db))
  /\ (~ stored (ID operation) db ->
      table db' = table db ++ [upsert_row operation (transaction_timestamp db)])
  /\ (forall x, scd_operations.id x <> ID operation ->
                (In x (table db') <-> In x (table db))).
Proof.
  intros Hup. rewrite UpsertOperationalIntent_run in Hup. cbv zeta in Hup.
  destruct (scd_operations_check _); [|discriminate].
  inversion Hup; subst result db'; clear Hup. simpl.
  set (r := upsert_row operation (transaction_timestamp db)).
  assert (Hex : existsb (has_id (scd_operations.id r)) (table db) = true
                <-> stored (ID operation) db).
  { rewrite existsb_exists. unfold stored. split.
    - intros (x & Hin & Hx). exists x. split; [assumption|].
      now apply has_id_true in Hx.
    - intros (x & Hin & Hx). exists x. split; [assumption|].
      now apply has_id_true. }
  split; [|split].
  - intros Hs. unfold sql_upsert. rewrite (proj2 Hex Hs). apply length_map.
  - intros Hn. unfold sql_upsert.
    destruct (existsb (has_id (scd_operations.id r)) (table db)) eqn:E;
      [|reflexivity].
    exfalso. apply Hn. now apply Hex.
  - intros x Hne. split.
    + intros Hin. apply in_upsert in Hin. destruct Hin as [-> | [Hin _]];
        [|assumption]. exfalso. now apply Hne.
    + intros Hin. now apply upsert_keeps_others.
Qed.

(** X10. [populateOperationalIntentCells] replaces the cells of the entity
    by what the table holds for its id, whatever the cells were: for an id
    that is not stored the entity is left with no cells, and no error is
    returned. *)
Theorem populateOperationalIntentCells_overwrites (db : DB)
    (o : OperationalIntent) (c : CellUnion) :
  populateOperationalIntentCells (set_Cells o c) db
  = populateOperationalIntentCells o db
  /\ (~ stored (ID o) db ->
      populateOperationalIntentCells o db = (Ok (set_Cells o []), db))
  /\ (forall r, keyed (table db) -> In r (table db) ->
                scd_operations.id r = ID o ->
                populateOperationalIntentCells o db
                = (Ok (set_Cells o (map to_uint64 (scd_operations.cells r))), db)).
Proof.
  rewrite !populateOperationalIntentCells_run. unfold expanded. simpl.
  split; [reflexivity|]. split.
  - intros Hn. now rewrite (not_stored_filter _ _ Hn).
  - intros r Hk Hin Hid. rewrite <- Hid, (filter_has_id_keyed _ _ Hk Hin).
    simpl. now rewrite app_nil_r.
Qed.

End WriteLaws.

(** ** The search and the dependents query, with the writes *)

Section SearchLaws.
Context `{Collaborators}.

Lemma searchOperationalIntents_ok (v4d : Volume4D) (db db' : DB)
    (result : list OperationalIntent) :
  searchOperationalIntents v4d db = (Ok result, db') ->
  exists vol footprint cover,
    SpatialVolume v4d = Some vol
    /\ Footprint vol = Some footprint
    /\ CalculateCovering footprint = inr cover
    /\ cover <> []
    /\ db' = db
    /\ result
       = map (expanded db)
           (map scan_row
              (filter (intersecting_where (map to_int64 cover) (AltitudeLo vol)
                         (AltitudeHi vol) (V4StartTime v4d) (V4EndTime v4d))
                 (table db))).
Proof.
  intros Hs.
  destruct (SpatialVolume v4d) as [vol|] eqn:Ev;
    [| unfold searchOperationalIntents in Hs; rewrite Ev in Hs; discriminate].
  destruct (Footprint vol) as [footprint|] eqn:Ef;
    [| unfold searchOperationalIntents in Hs; rewrite Ev, Ef in Hs; discriminate].
  destruct (CalculateCovering footprint) as [err | cover] eqn:Ec;
    [unfold searchOperationalIntents in Hs; rewrite Ev, Ef, Ec in Hs; discriminate|].
  destruct cover as [| c cover];
    [unfold searchOperationalIntents in Hs; rewrite Ev, Ef, Ec in Hs; discriminate|].
  rewrite (searchOperationalIntents_run db v4d vol footprint (c :: cover) Ev Ef Ec)
    in Hs by discriminate.
  inversion Hs. exists vol, footprint, (c :: cover).
  repeat split; try assumption; try reflexivity. discriminate.
Qed.

Lemma keyed_filter (f : scd_operations.row -> bool)
    (t : list scd_operations.row) :
  keyed t -> NoDup (map scd_operations.id (filter f t)).
Proof.
  unfold keyed. induction t as [| x t IH]; simpl; intros Hk; [constructor|].
  inversion Hk as [| ? ? Hnotin Hk']; subst.
  destruct (f x); simpl; [|now apply IH].
  constructor; [|now apply IH].
  intros Hin. apply Hnotin. apply in_map_iff in Hin.
  destruct Hin as (y & Hy & Hin). apply filter_In in Hin.
  apply in_map_iff. exists y. tauto.
Qed.

(** X11. Search and get agree: when [id] is the key, every entity that a
    search returns is the entity that a get of its id returns (same
    columns, same OVN, same cells), and no id is returned twice. *)
Theorem search_agrees_with_get (db db' : DB) (v4d : Volume4D)
    (result : list OperationalIntent) :
  keyed (table db) ->
  searchOperationalIntents v4d db = (Ok result, db') ->
  (forall e, In e result -> GetOperationalIntent (ID e) db = (Ok (Some e), db))
  /\ NoDup (map ID result).
Proof.
  intros Hk Hs.
  destruct (searchOperationalIntents_ok _ _ _ _ Hs)
    as (vol & footprint & cover & _ & _ & _ & _ & _ & ->).
  rewrite (expanded_filter _ _ Hk). split.
  - intros e He. apply in_map_iff in He. destruct He as (r & <- & Hr).
    apply filter_In in Hr. destruct Hr as [Hin _].
    now apply (GetOperationalIntent_stored db r Hk Hin).
  - rewrite map_map. simpl. now apply keyed_filter.
Qed.

(** X12. A stored row whose cell array is empty is invisible to every
    search: no filter returns an entity with its id. *)
Theorem search_skips_rows_without_cells (db db' : DB) (v4d : Volume4D)
    (result : list OperationalIntent) (r : scd_operations.row) :
  keyed (table db) ->
  In r (table db) ->
  scd_operations.cells r = [] ->
  searchOperationalIntents v4d db = (Ok result, db') ->
  forall e, In e result -> ID e <> scd_operations.id r.
Proof.
  intros Hk Hin Hc Hs e He Hid.
  destruct (searchOperationalIntents_ok _ _ _ _ Hs)
    as (vol & footprint & cover & _ & _ & _ & _ & _ & ->).
  rewrite (expanded_filter _ _ Hk) in He.
  apply in_map_iff in He. destruct He as (r' & <- & Hr').
  apply filter_In in Hr'. destruct Hr' as [Hin' Hw]. simpl in Hid.
  pose proof (filter_has_id_keyed _ _ Hk Hin') as Hf.
  rewrite Hid, (filter_has_id_keyed _ _ Hk Hin) in Hf.
  inversion Hf; subst r'.
  unfold intersecting_where in Hw. rewrite Hc in Hw. discriminate.
Qed.

(** X13. What is written is found: after a successful upsert of an
    operation whose cells are cell ids, every search whose filter the
    operation matches (a common cell with the covering, bounds within the
    bounds of the filter) succeeds and returns the entity that the upsert
    stored. *)
Theorem upserted_operation_is_found (db db1 : DB)
    (operation : OperationalIntent) (stored_entity : option OperationalIntent)
    (v4d : Volume4D) (vol : Volume3D) (footprint : Geometry)
    (cover : CellUnion) :
  keyed (table db) ->
  Forall is_uint64 (Cells operation) ->
  Forall is_uint64 cover ->
  UpsertOperationalIntent operation db = (Ok stored_entity, db1) ->
  SpatialVolume v4d = Some vol ->
  Footprint vol = Some footprint ->
  CalculateCovering footprint = inr cover ->
  matching_rule operation cover vol v4d ->
  exists e result,
    stored_entity = Some e
    /\ searchOperationalIntents v4d db1 = (Ok result, db1)
    /\ In e result
    /\ ID e = ID operation.
Proof.
  intros Hk Hu Hc Hup Hv Hf Hcov Hm.
  rewrite UpsertOperationalIntent_run in Hup. cbv zeta in Hup.
  destruct (scd_operations_check _); [|discriminate].
  inversion Hup; subst stored_entity db1; clear Hup.
  set (r := upsert_row operation (transaction_timestamp db)) in *.
  assert (Hne : cover <> []).
  { destruct Hm as ((c & _ & Hin) & _). intros ->. inversion Hin. }
  exists (scan_row r). eexists.
  unfold r at 1. rewrite (scan_upsert_row _ _ Hu).
  split; [reflexivity|].
  split; [now apply (searchOperationalIntents_run _ v4d vol footprint cover)|].
  split; [|reflexivity].
  rewrite expanded_filter by (simpl; now apply keyed_upsert).
  apply in_map. apply filter_In. simpl. split; [apply upsert_in|].
  apply (intersecting_where_rule r cover vol v4d).
  - simpl. apply Forall_forall. intros z Hz. apply in_map_iff in Hz.
    destruct Hz as (c & <- & _). apply to_int64_range.
  - assumption.
  - destruct Hm as (Hcells & Halt & Hend & Hstart).
    unfold matching_rule. simpl. rewrite (map_to_uint64_to_int64 _ Hu).
    repeat split; try assumption; apply Halt.
Qed.

(** X14. What is deleted is not found: after a delete of an id, whether it
    succeeded or not, no search returns an entity with the id and no
    dependents query lists it. *)
Theorem deleted_operation_is_not_found (db : DB) (i : dssmodels.ID) :
  let db1 := snd (DeleteOperationalIntent i db) in
  (forall v4d result db2,
     searchOperationalIntents v4d db1 = (Ok result, db2) ->
     forall e, In e result -> ID e <> i)
  /\ (forall sub ids db2,
        GetDependentOperationalIntents sub db1 = (Ok ids, db2) -> ~ In i ids).
Proof.
  cbv zeta. rewrite DeleteOperationalIntent_run. simpl. split.
  - intros v4d result db2 Hs e He Hid.
    destruct (searchOperationalIntents_ok _ _ _ _ Hs)
      as (vol & footprint & cover & _ & _ & _ & _ & _ & ->).
    rewrite map_map in He. apply in_map_iff in He. destruct He as (r & <- & Hr).
    apply filter_In in Hr. destruct Hr as [Hin _]. simpl in Hin, Hid.
    unfold sql_delete in Hin. apply filter_In in Hin. destruct Hin as [_ Hneg].
    apply negb_true_iff, has_id_false in Hneg. contradiction.
  - intros sub ids db2 Hd Hin. rewrite GetDependentOperationalIntents_run in Hd.
    inversion Hd; subst ids; clear Hd. simpl in Hin.
    apply in_map_iff in Hin. destruct Hin as (r & Hid & Hr).
    apply filter_In in Hr. destruct Hr as [Hr _].
    unfold sql_delete in Hr. apply filter_In in Hr. destruct Hr as [_ Hneg].
    apply negb_true_iff, has_id_false in Hneg. contradiction.
Qed.

(** X15. [GetDependentOperationalIntents] never fails and lists exactly the
    ids of the rows whose [subscription_id] is the one asked for, each once
    when [id] is the key; a subscription that nothing refers to gets the
    empty list. *)
Theorem GetDependentOperationalIntents_lists_linked (db : DB)
    (sub : dssmodels.ID) :
  exists ids,
    GetDependentOperationalIntents sub db = (Ok ids, db)
    /\ (forall i, In i ids
                  <-> exists r, In r (table db)
                                /\ scd_operations.id r = i
                                /\ scd_operations.subscription_id r = sub)
    /\ (keyed (table db) -> NoDup ids)
    /\ ((forall r, In r (table db) -> scd_operations.subscription_id r <> sub)
        -> ids = []).
Proof.
  eexists. split; [apply GetDependentOperationalIntents_run|].
  split; [|split].
  - intros i. rewrite in_map_iff. split.
    + intros (r & Hid & Hr). apply filter_In in Hr. destruct Hr as [Hin Hs].
      apply String.eqb_eq in Hs. now exists r.
    + intros (r & Hin & Hid & Hs). exists r. split; [assumption|].
      apply filter_In. split; [assumption | now apply String.eqb_eq].
  - intros Hk. now apply keyed_filter.
  - intros Hnone.
    destruct (filter _ (table db)) as [| x l] eqn:E; [reflexivity|].
    assert (Hx : In x (filter (fun r => String.eqb
                                 (scd_operations.subscription_id r) sub)
                         (table db))) by (rewrite E; now left).
    apply filter_In in Hx. destruct Hx as [Hin Hs]. apply String.eqb_eq in Hs.
    exfalso. now apply (Hnone x).
Qed.

(** X16. The dependents follow the upsert: after a successful upsert, the
    id of the operation is listed for the subscription the operation names
    and for no other subscription (a link to another subscription that the
    stored row had is gone), and the other ids are listed as before. *)
Theorem dependents_follow_upsert (db db' : DB)
    (operation : OperationalIntent) (result : option OperationalIntent)
    (sub : dssmodels.ID) :
  UpsertOperationalIntent operation db = (Ok result, db') ->
  exists ids ids0,
    GetDependentOperationalIntents sub db' = (Ok ids, db')
    /\ GetDependentOperationalIntents sub db = (Ok ids0, db)
    /\ (In (ID operation) ids <-> sub = SubscriptionID operation)
    /\ (forall j, j <> ID operation -> (In j ids <-> In j ids0)).
Proof.
  intros Hup. rewrite UpsertOperationalIntent_run in Hup. cbv zeta in Hup.
  destruct (scd_operations_check _); [|discriminate].
  inversion Hup; subst result db'; clear Hup.
  set (r := upsert_row operation (transaction_timestamp db)).
  eexists. eexists.
  split; [apply GetDependentOperationalIntents_run|].
  split; [apply GetDependentOperationalIntents_run|]. simpl.
  split.
  - rewrite in_map_iff. split.
    + intros (x & Hid & Hx). apply filter_In in Hx. destruct Hx as [Hin Hs].
      apply String.eqb_eq in Hs. apply in_upsert in Hin.
      destruct Hin as [-> | [_ Hne]]; [now symmetry|].
      exfalso. now apply Hne.
    + intros ->. exists r. split; [reflexivity|].
      apply filter_In. split; [apply upsert_in | apply String.eqb_refl].
  - intros j Hne. rewrite !in_map_iff. split.
    + intros (x & Hid & Hx). apply filter_In in Hx. destruct Hx as [Hin Hs].
      apply in_upsert in Hin. destruct Hin as [-> | [Hin _]];
        [exfalso; now apply Hne|].
      exists x. split; [assumption|]. now apply filter_In.
    + intros (x & Hid & Hx). apply filter_In in Hx. destruct Hx as [Hin Hs].
      exists x. split; [assumption|]. apply filter_In. split; [|assumption].
      apply upsert_keeps_others; [assumption|].
      simpl. congruence.
Qed.

End SearchLaws.

(** ** Widening a filter *)

Section FilterLaws.
Context `{Collaborators}.

(** A bound of a filter that is dropped or kept. *)
Lemma COALESCE_ge_widen {A} (leb : A -> A -> bool) (x b b' : option A) :
  b' = None \/ b' = b ->
  COALESCE (sql_ge leb x b) true = true ->
  COALESCE (sql_ge leb x b') true = true.
Proof.
  intros [-> | ->]; [|tauto]. now destruct x.
Qed.

Lemma COALESCE_le_widen {A} (leb : A -> A -> bool) (x b b' : option A) :
  b' = None \/ b' = b ->
  COALESCE (sql_le leb x b) true = true ->
  COALESCE (sql_le leb x b') true = true.
Proof.
  intros [-> | ->]; [|tauto]. now destruct x.
Qed.

(** X17. Widening a filter never loses a result: when a second filter has
    every cell of the covering of the first and each of its altitude and
    time bounds is either the bound of the first or absent, every entity
    the first search returns is returned by the second. *)
Theorem search_is_monotone (db : DB) (footprint footprint' : Geometry)
    (cover cover' : CellUnion) (lo hi lo' hi' : option Alt)
    (starts ends starts' ends' : option Time)
    (result : list OperationalIntent) :
  CalculateCovering footprint = inr cover ->
  CalculateCovering footprint' = inr cover' ->
  incl cover cover' ->
  (lo' = None \/ lo' = lo) ->
  (hi' = None \/ hi' = hi) ->
  (starts' = None \/ starts' = starts) ->
  (ends' = None \/ ends' = ends) ->
  searchOperationalIntents
    (mkVolume4D (Some (mkVolume3D (Some footprint) lo hi)) starts ends) db
  = (Ok result, db) ->
  exists result',
    searchOperationalIntents
      (mkVolume4D (Some (mkVolume3D (Some footprint') lo' hi')) starts' ends') db
    = (Ok result', db)
    /\ incl result result'.
Proof.
  intros Hc Hc' Hincl Hlo Hhi Hst Hen Hs.
  destruct (searchOperationalIntents_ok _ _ _ _ Hs)
    as (vol & fp & cv & Hv & Hf & Hcv & Hne & _ & ->).
  simpl in Hv. inversion Hv; subst vol. simpl in Hf. inversion Hf; subst fp.
  rewrite Hc in Hcv. inversion Hcv; subst cv. simpl.
  assert (Hne' : cover' <> []).
  { destruct cover as [| c cover]; [congruence|].
    intros ->. apply (Hincl c). now left. }
  eexists. split.
  - now apply (searchOperationalIntents_run db _
                 (mkVolume3D (Some footprint') lo' hi') footprint' cover').
  - simpl. intros e He. apply in_map_iff in He. destruct He as (o & <- & Ho).
    apply in_map. apply in_map_iff in Ho. destruct Ho as (r & <- & Hr).
    apply in_map. apply filter_In in Hr. destruct Hr as [Hin Hw].
    apply filter_In. split; [assumption|].
    unfold intersecting_where in *.
    rewrite !andb_true_iff in Hw. destruct Hw as ((((Ho & H1) & H2) & H3) & H4).
    rewrite !andb_true_iff. repeat split.
    + apply array_overlap_true in Ho. destruct Ho as (x & Hx & Hxc).
      apply array_overlap_true. exists x. split; [assumption|].
      apply in_map_iff in Hxc. destruct Hxc as (c & <- & Hcin).
      apply in_map. now apply Hincl.
    + now apply (COALESCE_ge_widen _ _ lo).
    + now apply (COALESCE_le_widen _ _ hi).
    + now apply (COALESCE_ge_widen _ _ starts).
    + now apply (COALESCE_le_widen _ _ ends).
Qed.

End FilterLaws.

(** ** The guard, on the other exits *)

Section GuardLaws.
Context `{Altitude}.

(** X18. When the body is left by a return, the guard does nothing: the
    transaction stays open with its writes, nothing is logged.  Running the
    guard once more after it has run changes nothing either. *)
Theorem recoverRollbackRepanic_without_panic (g : Goroutine) :
  (panicking g = None -> recoverRollbackRepanic g = g)
  /\ recoverRollbackRepanic (recoverRollbackRepanic g)
     = recoverRollbackRepanic g.
Proof.
  assert (Hnone : forall g0, panicking g0 = None -> recoverRollbackRepanic g0 = g0).
  { intros g0 Hp. unfold recoverRollbackRepanic, recover. rewrite Hp.
    destruct g0; simpl in *. now subst. }
  split; [apply Hnone|]. apply Hnone.
  unfold recoverRollbackRepanic, recover, Rollback, Logger_Error.
  destruct (panicking g); [|reflexivity].
  simpl. destruct (tx_done g); reflexivity.
Qed.

(** X19. When the panic comes after the transaction is finished, the
    rollback fails: the guard keeps the table as it is, logs "failed to
    rollback transaction" once with the error of the [sql.Tx], and, once
    more, leaves no panic in flight. *)
Theorem recoverRollbackRepanic_after_commit (g : Goroutine) (p : string) :
  panicking g = Some p ->
  tx_done g = true ->
  recoverRollbackRepanic g
  = mkGoroutine None (tx_table g) (tx_begin g) true
      (logged g ++ [("failed to rollback transaction", ErrTxDone)]).
Proof.
  intros Hp Hd. unfold recoverRollbackRepanic, recover, Rollback, Logger_Error.
  rewrite Hp. simpl. rewrite Hd. reflexivity.
Qed.

End GuardLaws.

(** ** The tables of the bootstrap *)

Section BootstrapLaws.
Import Schema.
Local Arguments String.eqb : simpl never.

(** X20. [Bootstrap] only appends: the catalogue it leaves is the catalogue
    it found followed by at most two tables, each of them one of its own
    two, and none of them with a name that was taken. *)
Theorem Bootstrap_appends (c : Catalog) :
  exists added,
    snd (Bootstrap c) = c ++ added
    /\ List.length added <= 2
    /\ (forall t, In t added ->
          (t = subscriptions \/ t = identification_service_areas)
          /\ lookup_table (tbl_name t) c = None).
Proof.
  rewrite Bootstrap_run. cbn [snd]. unfold ensure at 2.
  destruct (lookup_table (tbl_name subscriptions) c) as [x|] eqn:E1.
  - unfold ensure.
    destruct (lookup_table (tbl_name identification_service_areas) c) eqn:E2.
    + exists []. rewrite app_nil_r. simpl. split; [reflexivity|].
      split; [lia | tauto].
    + exists [identification_service_areas]. split; [reflexivity|].
      split; [simpl; lia|]. intros t0 [<- | []]. tauto.
  - unfold ensure. rewrite lookup_table_app.
    destruct (lookup_table (tbl_name identification_service_areas) c) eqn:E2.
    + exists [subscriptions]. split; [reflexivity|].
      split; [simpl; lia|]. intros t0 [<- | []]. tauto.
    + replace (String.eqb (tbl_name subscriptions)
                 (tbl_name identification_service_areas)) with false
        by reflexivity.
      exists [subscriptions; identification_service_areas].
      rewrite <- app_assoc. split; [reflexivity|].
      split; [simpl; lia|]. intros t0 [<- | [<- | []]]; tauto.
Qed.

(** X21. The rows the two tables take, in full: a row whose time bounds are
    NULL or timestamps is accepted exactly when [id], [owner], [url] and
    [updated_at] are not NULL, [cells] is a non-empty array, and
    [starts_at] is before [ends_at] when both are there.  An open-ended
    time bound is accepted. *)
Theorem bootstrap_tables_accept (t : Table) (r : SqlRow) :
  t = subscriptions \/ t = identification_service_areas ->
  null_or_time (r "starts_at") ->
  null_or_time (r "ends_at") ->
  accepts t r = true
  <-> (r "id" <> VNull /\ r "owner" <> VNull /\ r "url" <> VNull
       /\ r "updated_at" <> VNull
       /\ (exists x l, r "cells" = VArray (x :: l))
       /\ (forall s e, r "starts_at" = VTime s -> r "ends_at" = VTime e ->
                       (s < e)%Z)).
Proof.
  assert (Hnn : forall v, negb (is_null v) = true <-> v <> VNull).
  { intros v. destruct v; simpl; split; congruence. }
  intros Ht Hs He.
  assert (Htime : check_passes r starts_before_ends = true
                  <-> (forall s e, r "starts_at" = VTime s ->
                                   r "ends_at" = VTime e -> (s < e)%Z)).
  { unfold check_passes, starts_before_ends. simpl.
    destruct Hs as [-> | (s & ->)], He as [-> | (e & ->)]; simpl;
      try (split; [intros _ s0 e0; congruence | reflexivity]).
    destruct (s <? e)%Z eqn:E; simpl.
    - apply Z.ltb_lt in E. split; [|reflexivity].
      intros _ s0 e0 [= <-] [= <-]. assumption.
    - apply Z.ltb_ge in E. split; [discriminate|].
      intros Hlt. specialize (Hlt s e eq_refl eq_refl). lia. }
  assert (Hcase : forall x l,
            ((r "id" <> VNull /\ r "owner" <> VNull /\ r "url" <> VNull
              /\ r "updated_at" <> VNull
              /\ VArray (x :: l) <> VNull /\ true = true)
             /\ (forall s e, r "starts_at" = VTime s -> r "ends_at" = VTime e ->
                             (s < e)%Z))
            <-> (r "id" <> VNull /\ r "owner" <> VNull /\ r "url" <> VNull
                 /\ r "updated_at" <> VNull
                 /\ (exists x0 l0, VArray (x :: l) = VArray (x0 :: l0))
                 /\ (forall s e, r "starts_at" = VTime s ->
                                 r "ends_at" = VTime e -> (s < e)%Z))).
  { intros x l. split.
    - intros ((H1 & H2 & H3 & H4 & _ & _) & H6).
      refine (conj H1 (conj H2 (conj H3 (conj H4 (conj _ H6))))).
      now exists x, l.
    - intros (H1 & H2 & H3 & H4 & _ & H6).
      refine (conj (conj H1 (conj H2 (conj H3 (conj H4 (conj _ eq_refl))))) H6).
      discriminate. }
  destruct Ht as [-> | ->].
  - unfold accepts, subscriptions, column_accepts. simpl.
    fold starts_before_ends. rewrite !andb_true_r, !andb_true_iff, !Hnn, Htime.
    unfold check_passes. simpl.
    destruct (r "cells") as [| | | | | [| x l]]; simpl;
      try (split; [intros H; exfalso; intuition congruence
                  | intros (_ & _ & _ & _ & (x0 & l0 & Hx) & _); discriminate]).
    apply Hcase.
  - unfold accepts, identification_service_areas, column_accepts. simpl.
    fold starts_before_ends. rewrite !andb_true_r, !andb_true_iff, !Hnn, Htime.
    unfold check_passes. simpl.
    destruct (r "cells") as [| | | | | [| x l]]; simpl;
      try (split; [intros H; exfalso; intuition congruence
                  | intros (_ & _ & _ & _ & (x0 & l0 & Hx) & _); discriminate]).
    apply Hcase.
Qed.

End BootstrapLaws.

(** ** The further properties on the concrete instance *)

Module LawWitnesses.
Import Fixture.
#[local] Existing Instance altitude.
#[local] Existing Instance collaborators.

Lemma keyed_db_with_bare_row : keyed (table db_with_bare_row).
Proof.
  constructor; [intros [Heq | []]; discriminate|].
  constructor; [intros [] | constructor].
Qed.

Lemma uint64_far_cells : Forall is_uint64 (Cells far_operation).
Proof. repeat constructor; unfold is_uint64; simpl; lia. Qed.

Lemma far_upsert :
  UpsertOperationalIntent far_operation db0
  = (Ok (Some (scan_row (upsert_row far_operation 200%Z))),
     snd (UpsertOperationalIntent far_operation db0)).
Proof. vm_compute. reflexivity. Qed.

Lemma GetOperationalIntent_found_iff_stored_witness :
  GetOperationalIntent "op-1" db0 = (Ok (Some (scan_row row0)), db0)
  /\ GetOperationalIntent "op-9" db0 = (Ok None, db0).
Proof.
  pose proof (GetOperationalIntent_found_iff_stored db0 "op-1" Witnesses.keyed_db0)
    as [H1 _].
  pose proof (GetOperationalIntent_found_iff_stored db0 "op-9" Witnesses.keyed_db0)
    as [_ H9].
  split.
  - apply H1. exists row0. split; [now left | split; reflexivity].
  - apply H9. exact Witnesses.op9_not_stored.
Defined.

Lemma reads_leave_the_store_witness :
  snd (SearchOperationalIntents filter_at_end db0) = db0
  /\ snd (GetDependentOperationalIntents "sub-1" db0) = db0.
Proof.
  pose proof (reads_leave_the_store db0) as (_ & Hs & Hd & _).
  split; [apply Hs | apply Hd].
Defined.

Lemma reachable_store_is_consistent_witness :
  keyed (table (snd (UpsertOperationalIntent far_operation db_empty)))
  /\ cells_int64 (table (snd (UpsertOperationalIntent far_operation db_empty))).
Proof.
  pose proof (reachable_store_is_consistent
                (snd (UpsertOperationalIntent far_operation db_empty))
                (reachable_upsert db_empty far_operation (reachable_empty 200%Z)))
    as (Hk & Hc & _).
  split; assumption.
Defined.

Lemma UpsertOperationalIntent_never_panics_witness :
  fst (UpsertOperationalIntent update_of_nonexistent db0) <> Ok None.
Proof.
  exact (proj1 (proj2 (UpsertOperationalIntent_never_panics
                         update_of_nonexistent db0))).
Defined.

Lemma UpsertOperationalIntent_leaves_other_ids_witness :
  fst (GetOperationalIntent "op-1"
         (snd (UpsertOperationalIntent far_operation db0)))
  = fst (GetOperationalIntent "op-1" db0).
Proof.
  apply (UpsertOperationalIntent_leaves_other_ids db0 far_operation "op-1").
  discriminate.
Defined.

Lemma DeleteOperationalIntent_leaves_other_ids_witness :
  GetOperationalIntent "op-1" (snd (DeleteOperationalIntent "op-1" db0))
  = (Ok None, snd (DeleteOperationalIntent "op-1" db0))
  /\ fst (GetOperationalIntent "op-3"
            (snd (DeleteOperationalIntent "op-1" db_with_bare_row)))
     = fst (GetOperationalIntent "op-3" db_with_bare_row).
Proof.
  split.
  - exact (proj1 (DeleteOperationalIntent_leaves_other_ids db0 "op-1")).
  - apply (proj2 (DeleteOperationalIntent_leaves_other_ids db_with_bare_row "op-1")).
    discriminate.
Defined.

Lemma UpsertOperationalIntent_then_Delete_witness :
  table (snd (DeleteOperationalIntent "op-2"
                (snd (UpsertOperationalIntent far_operation db0))))
  = table db0.
Proof.
  pose proof (UpsertOperationalIntent_then_Delete db0 _ far_operation _ eq_refl)
    as (_ & _ & Hback).
  apply Hback. intros (r & [<- | []] & Hid). discriminate.
Defined.

Lemma UpsertOperationalIntent_repeated_witness :
  UpsertOperationalIntent stale_update
    (snd (UpsertOperationalIntent stale_update db0))
  = (fst (UpsertOperationalIntent stale_update db0),
     snd (UpsertOperationalIntent stale_update db0)).
Proof. exact (UpsertOperationalIntent_repeated db0 stale_update). Defined.

Lemma UpsertOperationalIntent_row_count_witness :
  List.length (table (snd (UpsertOperationalIntent stale_update db0))) = 1
  /\ List.length (table (snd (UpsertOperationalIntent far_operation db0))) = 2.
Proof.
  pose proof (UpsertOperationalIntent_row_count db0
                (snd (UpsertOperationalIntent stale_update db0))
                stale_update _ eq_refl)
    as (Hsame & _ & _).
  pose proof (UpsertOperationalIntent_row_count db0
                (snd (UpsertOperationalIntent far_operation db0))
                far_operation _ eq_refl)
    as (_ & Hnew & _).
  split.
  - rewrite Hsame; [reflexivity|]. exists row0. split; [now left | reflexivity].
  - rewrite Hnew; [reflexivity|]. intros (r & [<- | []] & Hid). discriminate.
Defined.

Lemma populateOperationalIntentCells_overwrites_witness :
  populateOperationalIntentCells update_of_nonexistent db0
  = (Ok (set_Cells update_of_nonexistent []), db0).
Proof.
  apply (proj1 (proj2 (populateOperationalIntentCells_overwrites db0
                         update_of_nonexistent []))).
  exact Witnesses.op9_not_stored.
Defined.

Lemma search_agrees_with_get_witness :
  exists result,
    searchOperationalIntents filter_at_end db0 = (Ok result, db0)
    /\ NoDup (map ID result).
Proof.
  exists (match fst (searchOperationalIntents filter_at_end db0) with
          | Ok result => result
          | _ => []
          end).
  assert (Hs : searchOperationalIntents filter_at_end db0
               = (Ok (match fst (searchOperationalIntents filter_at_end db0) with
                      | Ok result => result
                      | _ => []
                      end), db0))
    by (vm_compute; reflexivity).
  split; [exact Hs|].
  exact (proj2 (search_agrees_with_get db0 db0 filter_at_end _
                  Witnesses.keyed_db0 Hs)).
Defined.

Lemma search_skips_rows_without_cells_witness :
  forallb (fun e => negb (String.eqb (ID e) "op-3"))
    (match fst (searchOperationalIntents filter_at_end db_with_bare_row) with
     | Ok result => result
     | _ => []
     end) = true.
Proof.
  apply forallb_forall. intros e He. apply negb_true_iff, String.eqb_neq.
  revert e He.
  apply (search_skips_rows_without_cells db_with_bare_row db_with_bare_row
           filter_at_end _ row_without_cells keyed_db_with_bare_row).
  - right. now left.
  - reflexivity.
  - vm_compute. reflexivity.
Defined.

Lemma upserted_operation_is_found_witness :
  exists e result,
    searchOperationalIntents filter_at_end
      (snd (UpsertOperationalIntent far_operation db0))
    = (Ok result, snd (UpsertOperationalIntent far_operation db0))
    /\ In e result
    /\ ID e = "op-2".
Proof.
  destruct (upserted_operation_is_found db0 _ far_operation _ filter_at_end
              volume (Some [101%Z; 200%Z]) [101%Z; 200%Z]
              Witnesses.keyed_db0 uint64_far_cells
              ltac:(repeat constructor; unfold is_uint64; simpl; lia)
              far_upsert eq_refl eq_refl eq_refl)
    as (e & result & _ & Hs & Hin & Hid).
  - split; [|split; [|split]].
    + exists 101%Z. split; [right; now left | now left].
    + split; [right; simpl; unfold alt_le; reflexivity | now left].
    + now left.
    + now left.
  - exists e, result. repeat split; assumption.
Defined.

Lemma deleted_operation_is_not_found_witness :
  exists ids,
    GetDependentOperationalIntents "sub-1"
      (snd (DeleteOperationalIntent "op-1" db0))
    = (Ok ids, snd (DeleteOperationalIntent "op-1" db0))
    /\ ~ In "op-1" ids.
Proof.
  eexists. split; [reflexivity|].
  apply (proj2 (deleted_operation_is_not_found db0 "op-1") "sub-1" _
           (snd (DeleteOperationalIntent "op-1" db0))).
  reflexivity.
Defined.

Lemma GetDependentOperationalIntents_lists_linked_witness :
  GetDependentOperationalIntents "sub-1" db0 = (Ok ["op-1"], db0)
  /\ GetDependentOperationalIntents "sub-7" db0 = (Ok [], db0).
Proof.
  destruct (GetDependentOperationalIntents_lists_linked db0 "sub-7")
    as (ids & Hrun & _ & _ & Hnone).
  split; [reflexivity|].
  rewrite Hrun. f_equal. f_equal. apply Hnone.
  intros r [<- | []]. discriminate.
Defined.

Lemma dependents_follow_upsert_witness :
  exists ids,
    GetDependentOperationalIntents "sub-1"
      (snd (UpsertOperationalIntent far_operation db0))
    = (Ok ids, snd (UpsertOperationalIntent far_operation db0))
    /\ In "op-2" ids.
Proof.
  destruct (dependents_follow_upsert db0 _ far_operation _ "sub-1" far_upsert)
    as (ids & ids0 & Hrun & _ & Hop & _).
  exists ids. split; [exact Hrun|]. now apply Hop.
Defined.

Lemma search_is_monotone_witness :
  exists result',
    searchOperationalIntents
      (mkVolume4D (Some (mkVolume3D (Some (Some [101%Z; 200%Z])) None (Some 600%Z)))
         None (Some 3000%Z)) db0
    = (Ok result', db0)
    /\ In (scan_row row0) result'.
Proof.
  destruct (@search_is_monotone altitude collaborators db0
              (Some [101%Z]) (Some [101%Z; 200%Z])
              [101%Z] [101%Z; 200%Z] (Some 400%Z) (Some 600%Z) None (Some 600%Z)
              (Some 2000%Z) (Some 3000%Z) None (Some 3000%Z) _
              eq_refl eq_refl
              ltac:(intros c [<- | []]; now left)
              ltac:(now left) ltac:(now right) ltac:(now left) ltac:(now right)
              eq_refl)
    as (result' & Hs & Hincl).
  exists result'. split; [exact Hs|]. apply Hincl. now left.
Defined.

Lemma recoverRollbackRepanic_without_panic_witness :
  recoverRollbackRepanic returned = returned.
Proof.
  apply (proj1 (recoverRollbackRepanic_without_panic returned)). reflexivity.
Defined.

Lemma recoverRollbackRepanic_after_commit_witness :
  tx_table (recoverRollbackRepanic panicked_after_commit) = [row0]
  /\ panicking (recoverRollbackRepanic panicked_after_commit) = None
  /\ List.length (logged (recoverRollbackRepanic panicked_after_commit)) = 1.
Proof.
  rewrite (recoverRollbackRepanic_after_commit panicked_after_commit
             "runtime error: index out of range" eq_refl eq_refl).
  repeat split.
Defined.

Lemma Bootstrap_appends_witness :
  exists added,
    snd (Schema.Bootstrap [Schema.subscriptions])
    = [Schema.subscriptions] ++ added
    /\ List.length added <= 2.
Proof.
  destruct (Bootstrap_appends [Schema.subscriptions]) as (added & Ha & Hl & _).
  exists added. split; assumption.
Defined.

Lemma bootstrap_tables_accept_witness :
  Schema.accepts Schema.identification_service_areas open_ended_area = true.
Proof.
  apply (bootstrap_tables_accept Schema.identification_service_areas
           open_ended_area).
  - now right.
  - right. now exists 10%Z.
  - now left.
  - refine (conj _ (conj _ (conj _ (conj _ (conj _ _))))); try discriminate.
    now exists 7%Z, [].
Defined.

End LawWitnesses.
